(** * tiktok_transcriber: the resumable batch engine

    A shallow embedding of [progress.py] (the checkpoint store),
    [downloader.py] (the retry loop of the media fetch) and [cli.py] (the
    per-item pipeline and the batch loop).

    Python objects become records, [self] is passed and returned explicitly,
    the file system is a finite map from paths to contents, and every answer
    of the outside world (yt-dlp, Whisper, the clock, the operating system,
    SIGINT) is an argument of the function that asks for it.  Calls to the
    outside world are recorded in a trace of events, so that "which stage
    ran, and in which order" is a statement about a list. *)

From Stdlib Require Import ZArith Ascii String List Bool Sorted Lia.
From stdpp Require Import base option list gmap strings.

Set Warnings "-clear-no-such-hyp".

Local Open Scope Z_scope.

(** ** Python values shared by the modules *)

(** Exceptions that leave the functions modelled here.  [OSError] is what a
    failed [open], [write] or [os.replace] raises ([IOError] is its alias);
    [UncaughtError] stands for the [AttributeError]/[TypeError] that
    [ProgressTracker.load] does not catch. *)
Inductive exn : Type :=
  | OSError
  | UncaughtError.

Inductive outcome (A : Type) : Type :=
  | Returned (a : A)
  | Raised (e : exn).
Arguments Returned {A} a.
Arguments Raised {A} e.

(** A dictionary slot that holds either the empty dict [{}] or a record. *)
Inductive payload (A : Type) : Type :=
  | EmptyDict
  | Filled (a : A).
Arguments EmptyDict {A}.
Arguments Filled {A} a.

(** What a stage hands back: a dict with an ["error"] key, or a dict
    without one. *)
Inductive stage_dict (A : Type) : Type :=
  | HasError (msg : string)
  | NoError (a : A).
Arguments HasError {A} msg.
Arguments NoError {A} a.

(** Python's [needle in hay] on strings. *)
Fixpoint contains (needle hay : string) : bool :=
  String.prefix needle hay ||
  match hay with
  | EmptyString => false
  | String _ rest => contains needle rest
  end.

(** Python's [range(n)] for an [int] [n]. *)
Definition range (n : Z) : list Z := map Z.of_nat (seq 0 (Z.to_nat n)).

(** The file system: path to content.  Two paths name the same file exactly
    when they are the same string. *)
Abbreviation filesystem := (gmap string string).

Definition path_exists (p : string) (fs : filesystem) : bool :=
  bool_decide (is_Some (fs !! p)).

(** Faults of the operating system during one [save]: [open] of the
    temporary file fails, the write stops after [n] characters, or
    [os.replace] fails. *)
Inductive io_fault : Type :=
  | NoFault
  | OpenFails
  | WriteFails (n : nat)
  | ReplaceFails.

(** Calls to the outside world, in the order they are made. *)
Inductive event : Type :=
  | EvExtract (url : string)
  | EvDownload (url : string) (attempt : Z)
  | EvSleep (seconds : Z)
  | EvTranscribe (audio_path : option string)
  | EvCleanup (audio_path : option string)
  | EvSave (path : string)
  | EvInterruptedCheck (flag : bool).

Section Engine.

(** The metadata dict and the transcript dict are opaque to the engine. *)
Context {Metadata Transcript : Type}.

(** One entry of [results]: the dict built by [process_url] or by
    [mark_failed].  [None] in an optional field means the key is absent. *)
Record Result : Type := mkResult {
  url : string;
  status : string;
  metadata : option (payload Metadata);
  transcript : option (payload Transcript);
  error : option string
}.

(** ** progress.py *)

Record ProgressTracker : Type := mkProgressTracker {
  progress_file : string;
  processed_urls : gset string;
  results : list Result;
  failed_urls : gmap string string
}.

(** The dict written by [save]. *)
Record CheckpointData : Type := mkCheckpointData {
  timestamp : string;
  data_processed_urls : gset string;
  data_results : list Result;
  data_failed_urls : gmap string string
}.

(** What [json.load] on the checkpoint gives, seen through the three
    assignments of [load]: a decode error (caught), an exception [load] does
    not catch (the document is not an object, or an entry is not hashable),
    or the three fields. *)
Inductive json_document : Type :=
  | JSONDecodeError
  | JSONIllTyped
  | JSONObject (processed : list string) (res : list Result)
               (failed : gmap string string).

(** [json.dump(data, f, indent=2)] and [json.load(f)], from the standard
    library of Python. *)
Variable json_dump : CheckpointData -> string.
Variable json_load : string -> json_document.

Definition ProgressTracker_init (progress_file : string) : ProgressTracker :=
  {| progress_file := progress_file;
     processed_urls := ∅;
     results := [];
     failed_urls := ∅ |}.

Inductive load_result : Type :=
  | LoadFalse
  | LoadTrue (t : ProgressTracker)
  | LoadRaised (e : exn).

Definition load (t : ProgressTracker) (fs : filesystem) : load_result :=
  match fs !! progress_file t with
  | None => LoadFalse
  | Some content =>
      match json_load content with
      | JSONDecodeError => LoadFalse
      | JSONIllTyped => LoadRaised UncaughtError
      | JSONObject processed res failed =>
          LoadTrue {| progress_file := progress_file t;
                      processed_urls := list_to_set processed;
                      results := res;
                      failed_urls := failed |}
      end
  end.

Definition temp_file (t : ProgressTracker) : string :=
  progress_file t +:+ ".tmp".

Definition checkpoint_data (now : string) (t : ProgressTracker) : string :=
  json_dump {| timestamp := now +:+ "Z";
               data_processed_urls := processed_urls t;
               data_results := results t;
               data_failed_urls := failed_urls t |}.

(** [with open(temp_file, "w") as f: json.dump(data, f, indent=2)]: the
    file is created or truncated, then filled; a write that stops early
    leaves a prefix of the document in it. *)
Definition write_file (fault : io_fault) (path data : string)
    (fs : filesystem) : filesystem * outcome unit :=
  match fault with
  | OpenFails => (fs, Raised OSError)
  | WriteFails n => (<[path := substring 0 n data]> fs, Raised OSError)
  | _ => (<[path := data]> fs, Returned tt)
  end.

(** [os.replace(src, dst)]: one atomic rename, or no change at all. *)
Definition os_replace (fault : io_fault) (src dst : string)
    (fs : filesystem) : filesystem * outcome unit :=
  match fault, fs !! src with
  | ReplaceFails, _ => (fs, Raised OSError)
  | _, None => (fs, Raised OSError)
  | _, Some content => (<[dst := content]> (delete src fs), Returned tt)
  end.

Definition save (now : string) (fault : io_fault) (t : ProgressTracker)
    (fs : filesystem) : filesystem * outcome unit :=
  let data := checkpoint_data now t in
  let '(fs1, written) := write_file fault (temp_file t) data fs in
  match written with
  | Raised e => (fs1, Raised e)
  | Returned _ => os_replace fault (temp_file t) (progress_file t) fs1
  end.

Definition mark_success (now : string) (fault : io_fault) (u : string)
    (result : Result) (t : ProgressTracker) (fs : filesystem)
    : ProgressTracker * filesystem * outcome unit :=
  let t1 := {| progress_file := progress_file t;
               processed_urls := {[u]} ∪ processed_urls t;
               results := results t ++ [result];
               failed_urls := failed_urls t |} in
  let '(fs1, o) := save now fault t1 fs in
  (t1, fs1, o).

Definition mark_failed (now : string) (fault : io_fault) (u : string)
    (err : string) (t : ProgressTracker) (fs : filesystem)
    : ProgressTracker * filesystem * outcome unit :=
  let t1 := {| progress_file := progress_file t;
               processed_urls := {[u]} ∪ processed_urls t;
               results := results t ++
                 [{| url := u; status := "failed"; metadata := None;
                     transcript := None; error := Some err |}];
               failed_urls := <[u := err]> (failed_urls t) |} in
  let '(fs1, o) := save now fault t1 fs in
  (t1, fs1, o).

Definition is_processed (u : string) (t : ProgressTracker) : bool :=
  bool_decide (u ∈ processed_urls t).

Definition get_pending_urls (all_urls : list string) (t : ProgressTracker)
    : list string :=
  filter (λ u, u ∉ processed_urls t) all_urls.

(** ** downloader.py *)

Record TikTokDownloader : Type := mkTikTokDownloader {
  output_dir : string;
  max_retries : Z
}.

(** [_extract_video_id] picks the identifier out of the URL with two regular
    expressions and falls back to an MD5 digest; only the file name it
    yields matters here. *)
Variable _extract_video_id : string -> string.

(** [os.path.join] on two components (posixpath). *)
Definition ends_with_slash (a : string) : bool :=
  match String.get (Nat.pred (String.length a)) a with
  | Some c => bool_decide (c = "/"%char)
  | None => false
  end.

Definition path_join (a b : string) : string :=
  if String.prefix "/" b then b
  else if bool_decide (a = "") || ends_with_slash a then a +:+ b
  else a +:+ "/" +:+ b.

Definition output_path (d : TikTokDownloader) (u : string) : string :=
  path_join (output_dir d) (_extract_video_id u +:+ ".mp3").

(** One call of [ydl.download([url])]: it returns, having perhaps produced
    the audio file, or it raises [DownloadError], or it raises something
    else. *)
Inductive ydl_download_outcome : Type :=
  | DlReturns (created : option string)
  | DlDownloadError (msg : string)
  | DlException (msg : string).

(** The pair [(audio_path, error_message)]. *)
Definition download_result : Type := option string * option string.

(** The body of [for attempt in range(self.max_retries)], with what is left
    of the range as the argument it recurses on. *)
Fixpoint download_attempts (ydl : Z -> ydl_download_outcome)
    (d : TikTokDownloader) (u : string) (attempts : list Z) (fs : filesystem)
    : download_result * list event * filesystem :=
  match attempts with
  | [] => ((None, Some "Max retries exceeded"), [], fs)
  | attempt :: rest =>
      match ydl attempt with
      | DlReturns created =>
          let fs1 := match created with
                     | Some audio => <[output_path d u := audio]> fs
                     | None => fs
                     end in
          if path_exists (output_path d u) fs1
          then ((Some (output_path d u), None), [EvDownload u attempt], fs1)
          else ((None, Some "Audio file not created"), [EvDownload u attempt], fs1)
      | DlDownloadError error_msg =>
          if contains "Private video" error_msg || contains "Video unavailable" error_msg
          then ((None, Some "Video is private or unavailable"),
                [EvDownload u attempt], fs)
          else if attempt <? max_retries d - 1
          then let '(r, evs, fs1) := download_attempts ydl d u rest fs in
               (r, EvDownload u attempt :: EvSleep (2 ^ attempt) :: evs, fs1)
          else ((None, Some ("Download failed: " +:+ error_msg)),
                [EvDownload u attempt], fs)
      | DlException e =>
          if attempt <? max_retries d - 1
          then let '(r, evs, fs1) := download_attempts ydl d u rest fs in
               (r, EvDownload u attempt :: EvSleep (2 ^ attempt) :: evs, fs1)
          else ((None, Some ("Unexpected error: " +:+ e)),
                [EvDownload u attempt], fs)
      end
  end.

Definition download_audio (ydl : Z -> ydl_download_outcome)
    (d : TikTokDownloader) (u : string) (fs : filesystem)
    : download_result * list event * filesystem :=
  download_attempts ydl d u (range (max_retries d)) fs.

(** [cleanup]: [os.remove] may raise [OSError], which is swallowed. *)
Definition cleanup (remove_fails : bool) (audio_path : option string)
    (fs : filesystem) : filesystem :=
  match audio_path with
  | Some p =>
      if negb (bool_decide (p = "")) && path_exists p fs
      then (if remove_fails then fs else delete p fs)
      else fs
  | None => fs
  end.

(** ** metadata.py *)

(** One call of [ydl.extract_info(url, download=False)]; [InfoDict] carries
    the dict that [extract] builds from the fields of the answer. *)
Inductive ydl_info_outcome : Type :=
  | InfoNone
  | InfoDict (m : Metadata)
  | InfoDownloadError (msg : string)
  | InfoException (msg : string).

Definition extract (info : ydl_info_outcome) : stage_dict Metadata :=
  match info with
  | InfoNone => HasError "Could not extract video info"
  | InfoDict m => NoError m
  | InfoDownloadError error_msg =>
      if contains "Private video" error_msg then HasError "Video is private"
      else if contains "Video unavailable" error_msg then HasError "Video unavailable"
      else HasError ("Could not extract metadata: " +:+ error_msg)
  | InfoException e => HasError ("Unexpected error: " +:+ e)
  end.

(** ** transcriber.py *)

(** One call of [self.model.transcribe], the lazy loading of the model
    included; [WhisperDict] carries the dict [transcribe] builds. *)
Inductive whisper_outcome : Type :=
  | WhisperDict (t : Transcript)
  | WhisperException (msg : string).

Definition transcribe (w : whisper_outcome) : stage_dict Transcript :=
  match w with
  | WhisperDict t => NoError t
  | WhisperException e => HasError ("Transcription failed: " +:+ e)
  end.

(** ** cli.py *)

Record TikTokTranscriber : Type := mkTikTokTranscriber {
  downloader : TikTokDownloader;
  progress : ProgressTracker;
  _interrupted : bool
}.

(** The answers of the outside world while one item is in the loop: yt-dlp
    (metadata, then one answer per download attempt), Whisper, [os.remove],
    the clock and the disk at [save], and whether SIGINT is delivered at
    some moment of this iteration (the handler only sets the flag). *)
Record ItemEnv : Type := mkItemEnv {
  env_extract_info : ydl_info_outcome;
  env_download : Z -> ydl_download_outcome;
  env_whisper : whisper_outcome;
  env_remove_fails : bool;
  env_utcnow : string;
  env_save_fault : io_fault;
  env_sigint : bool
}.

(** Python's truth value of an [Optional[str]]. *)
Definition truthy (s : option string) : bool :=
  match s with
  | Some x => negb (bool_decide (x = ""))
  | None => false
  end.

Definition process_url (w : ItemEnv) (d : TikTokDownloader) (u : string)
    (fs : filesystem) : Result * list event * filesystem :=
  match extract (env_extract_info w) with
  | HasError err =>
      ({| url := u; status := "failed"; metadata := Some EmptyDict;
          transcript := Some EmptyDict; error := Some err |},
       [EvExtract u], fs)
  | NoError m =>
      let '((audio_path, err), evs, fs1) := download_audio (env_download w) d u fs in
      if truthy err
      then ({| url := u; status := "failed"; metadata := Some (Filled m);
               transcript := Some EmptyDict; error := err |},
            EvExtract u :: evs, fs1)
      else
        let result :=
          match transcribe (env_whisper w) with
          | HasError terr =>
              {| url := u; status := "failed"; metadata := Some (Filled m);
                 transcript := Some EmptyDict; error := Some terr |}
          | NoError t =>
              {| url := u; status := "success"; metadata := Some (Filled m);
                 transcript := Some (Filled t); error := None |}
          end in
        (result,
         EvExtract u :: evs ++ [EvTranscribe audio_path; EvCleanup audio_path],
         cleanup (env_remove_fails w) audio_path fs1)
  end.

(** The body of [for url in urls_to_process] after the test of the flag:
    the item is processed and marked.  SIGINT during the iteration only sets
    the flag. *)
Definition loop_body (w : ItemEnv) (u : string) (s : TikTokTranscriber)
    (fs : filesystem)
    : TikTokTranscriber * filesystem * list event * outcome unit :=
  let '(result, evs, fs1) := process_url w (downloader s) u fs in
  let '(t1, fs2, saved) :=
    if bool_decide (status result = "success")
    then mark_success (env_utcnow w) (env_save_fault w) u result (progress s) fs1
    else mark_failed (env_utcnow w) (env_save_fault w) u
           (default "Unknown error" (error result)) (progress s) fs1 in
  ({| downloader := downloader s; progress := t1;
      _interrupted := _interrupted s || env_sigint w |},
   fs2, evs ++ [EvSave (progress_file t1)], saved).

(** The loop; [k] numbers the iterations, [world k] is the outside world
    during iteration [k]. *)
Fixpoint batch_loop (world : nat -> ItemEnv) (k : nat)
    (urls_to_process : list string) (s : TikTokTranscriber) (fs : filesystem)
    : TikTokTranscriber * filesystem * list event * outcome unit :=
  match urls_to_process with
  | [] => (s, fs, [], Returned tt)
  | u :: rest =>
      if _interrupted s
      then (s, fs, [EvInterruptedCheck true], Returned tt)
      else
        let '(s1, fs1, evs1, saved) := loop_body (world k) u s fs in
        match saved with
        | Raised e => (s1, fs1, EvInterruptedCheck false :: evs1, Raised e)
        | Returned _ =>
            let '(s2, fs2, evs2, o) := batch_loop world (S k) rest s1 fs1 in
            (s2, fs2, EvInterruptedCheck false :: evs1 ++ evs2, o)
        end
  end.

(** [if resume and self.progress.load()]: the tracker and the list the loop
    will walk. *)
Definition resume_state (urls : list string) (resume : bool)
    (t : ProgressTracker) (fs : filesystem)
    : outcome (ProgressTracker * list string) :=
  match (if resume then load t fs else LoadFalse) with
  | LoadRaised e => Raised e
  | LoadTrue t0 => Returned (t0, get_pending_urls urls t0)
  | LoadFalse => Returned (t, urls)
  end.

(** [process_batch].  [sigint0] says whether SIGINT is delivered between the
    installation of the handler and the first test of the flag. *)
Definition process_batch (world : nat -> ItemEnv) (sigint0 : bool)
    (urls : list string) (resume : bool) (s : TikTokTranscriber)
    (fs : filesystem)
    : TikTokTranscriber * filesystem * list event * outcome (list Result) :=
  match resume_state urls resume (progress s) fs with
  | Raised e => (s, fs, [], Raised e)
  | Returned (t0, urls_to_process) =>
      let s0 := {| downloader := downloader s; progress := t0;
                   _interrupted := _interrupted s || sigint0 |} in
      match urls_to_process with
      | [] => (s0, fs, [], Returned (results t0))
      | _ =>
          let '(s1, fs1, evs, o) := batch_loop world 0 urls_to_process s0 fs in
          (s1, fs1, evs,
           match o with
           | Returned _ => Returned (results (progress s1))
           | Raised e => Raised e
           end)
      end
  end.

End Engine.

(** ** Observations on traces and states, used to state the properties *)

(** The classification made by [download_audio] on a [DownloadError]. *)
Definition terminal_error (error_msg : string) : bool :=
  contains "Private video" error_msg || contains "Video unavailable" error_msg.

(** An attempt after which the retry loop may go round again. *)
Definition retryable (o : ydl_download_outcome) : bool :=
  match o with
  | DlReturns _ => false
  | DlDownloadError error_msg => negb (terminal_error error_msg)
  | DlException _ => true
  end.

(** The attempt numbers and the sleeps of a trace, in order. *)
Definition attempts_made (evs : list event) : list Z :=
  omap (λ e, match e with EvDownload _ k => Some k | _ => None end) evs.

Definition delays (evs : list event) : list Z :=
  omap (λ e, match e with EvSleep d => Some d | _ => None end) evs.

(** The items whose pipeline was started. *)
Definition items_started (evs : list event) : list string :=
  omap (λ e, match e with EvExtract u => Some u | _ => None end) evs.

(** The stage an event belongs to: 0 metadata, 1 media fetch, 2
    transcription, 3 release of the audio file. *)
Definition stage_rank (e : event) : option nat :=
  match e with
  | EvExtract _ => Some 0%nat
  | EvDownload _ _ | EvSleep _ => Some 1%nat
  | EvTranscribe _ => Some 2%nat
  | EvCleanup _ => Some 3%nat
  | EvSave _ | EvInterruptedCheck _ => None
  end.

(** The transcription calls and the releases of a trace, in order. *)
Definition transcriptions (evs : list event) : list (option string) :=
  omap (λ e, match e with EvTranscribe p => Some p | _ => None end) evs.

Definition releases (evs : list event) : list (option string) :=
  omap (λ e, match e with EvCleanup p => Some p | _ => None end) evs.

(** [a] belongs to a stage that is not later than the stage of [b]. *)
Definition stage_le (a b : event) : Prop :=
  match stage_rank a, stage_rank b with
  | Some x, Some y => (x <= y)%nat
  | _, _ => False
  end.

(** [k] rounds of the retry loop that end in a sleep: attempt [j], then a
    sleep of [2 ^ j] seconds, for [j] from [0] to [k - 1]. *)
Definition backoff_rounds (u : string) (k : Z) : list event :=
  flat_map (λ j, [EvDownload u j; EvSleep (2 ^ j)]) (range k).

(** The message [download_audio] returns when the last attempt allowed
    fails with a retryable error. *)
Definition last_failure (o : ydl_download_outcome) : string :=
  match o with
  | DlReturns _ => ""
  | DlDownloadError error_msg => "Download failed: " +:+ error_msg
  | DlException e => "Unexpected error: " +:+ e
  end.

(** The value of [_interrupted] at the test before iteration [k + j], when
    it was [flag] before iteration [k]. *)
Definition flag_before (sigint : nat -> bool) (k : nat) (flag : bool)
    (j : nat) : bool :=
  flag || existsb sigint (seq k j).

Section Observations.

Context {Metadata Transcript : Type}.
Local Abbreviation Tracker := (@ProgressTracker Metadata Transcript).
Local Abbreviation Outcome := (@Result Metadata Transcript).

(** The first half of the invariant of the progress state: every failed
    identifier and every identifier with a success outcome is in the
    processed set. *)
Definition members_recorded (t : Tracker) : Prop :=
  dom (failed_urls t) ⊆ processed_urls t ∧
  Forall (λ r, status r = "success" -> url r ∈ processed_urls t) (results t).

(** The second half: as many processed identifiers as outcomes. *)
Definition one_outcome_each (t : Tracker) : Prop :=
  size (processed_urls t) = length (results t).

#[global] Instance members_recorded_dec (t : Tracker) : Decision (members_recorded t).
Proof. unfold members_recorded. apply _. Defined.

#[global] Instance one_outcome_each_dec (t : Tracker) : Decision (one_outcome_each t).
Proof. unfold one_outcome_each. apply _. Defined.

(** A call of one of the two mutators. *)
Inductive mark_op : Type :=
  | MarkSuccess (u : string) (result : Outcome)
  | MarkFailed (u : string) (err : string).

Definition op_url (op : mark_op) : string :=
  match op with
  | MarkSuccess u _ => u
  | MarkFailed u _ => u
  end.

(** [process_batch] passes to [mark_success] the result built for the same
    URL. *)
Definition op_from_batch (op : mark_op) : Prop :=
  match op with
  | MarkSuccess u result => url result = u
  | MarkFailed _ _ => True
  end.

Variable json_dump : @CheckpointData Metadata Transcript -> string.

Definition apply_mark (now : string) (fault : io_fault) (op : mark_op)
    (t : Tracker) (fs : filesystem) : Tracker * filesystem * outcome unit :=
  match op with
  | MarkSuccess u result => mark_success json_dump now fault u result t fs
  | MarkFailed u err => mark_failed json_dump now fault u err t fs
  end.

(** A sequence of calls; call [k] meets the clock and the disk of [os k].
    An exception ends the sequence, as it would end the caller. *)
Fixpoint apply_marks (os : nat -> string * io_fault) (k : nat)
    (ops : list mark_op) (t : Tracker) (fs : filesystem)
    : Tracker * filesystem * outcome unit :=
  match ops with
  | [] => (t, fs, Returned tt)
  | op :: rest =>
      let '(t1, fs1, o) := apply_mark (os k).1 (os k).2 op t fs in
      match o with
      | Raised e => (t1, fs1, Raised e)
      | Returned _ => apply_marks os (S k) rest t1 fs1
      end
  end.

(** The checkpoint on disk is the document of the tracker in memory. *)
Definition durable (t : Tracker) (fs : filesystem) : Prop :=
  ∃ now, fs !! progress_file t = Some (checkpoint_data json_dump now t).

End Observations.

(** The events of one item between the test of the flag and the save: they
    start with the metadata call for that item and contain no test of the
    flag and no save. *)
Definition item_events (u : string) (body : list event) : Prop :=
  head body = Some (EvExtract u) ∧ Forall (λ e, is_Some (stage_rank e)) body.

(** The trace of a loop that handled the items of [done] and then found the
    flag set: per item a test of the flag that finds it clear, the events of
    the item, one save; at the end one test that finds it set. *)
Inductive stopped_trace (p : string) : list string -> list event -> Prop :=
  | stopped_now : stopped_trace p [] [EvInterruptedCheck true]
  | stopped_after u done body evs :
      item_events u body ->
      stopped_trace p done evs ->
      stopped_trace p (u :: done)
        (EvInterruptedCheck false :: body ++ EvSave p :: evs).

(** The trace of a loop that handled all the items of [done] and ended. *)
Inductive finished_trace (p : string) : list string -> list event -> Prop :=
  | finished_now : finished_trace p [] []
  | finished_after u done body evs :
      item_events u body ->
      finished_trace p done evs ->
      finished_trace p (u :: done)
        (EvInterruptedCheck false :: body ++ EvSave p :: evs).

(** ** A small concrete world, for the examples *)

Definition demo_dump (d : @CheckpointData string string) : string :=
  timestamp d +:+ " " +:+ String.concat "," (map url (data_results d)).

(** The outcome of a finished item ["A"]. *)
Definition demo_result_A : @Result string string :=
  {| url := "A"; status := "success"; metadata := Some (Filled "meta");
     transcript := Some (Filled "text"); error := None |}.

(** Two documents are understood: the empty checkpoint and the checkpoint
    of a run that finished ["A"]. *)
Definition demo_load (content : string) : @json_document string string :=
  if bool_decide (content = "{}") then JSONObject [] [] ∅
  else if bool_decide (content = "{A}") then JSONObject ["A"] [demo_result_A] ∅
  else JSONDecodeError.

Definition demo_video_id (u : string) : string := u.

Definition demo_downloader : TikTokDownloader :=
  {| output_dir := "/tmp/tiktok_audio_x"; max_retries := 3 |}.

Definition demo_tracker : @ProgressTracker string string :=
  ProgressTracker_init ".tiktok_progress.json".

Definition demo_transcriber : @TikTokTranscriber string string :=
  {| downloader := demo_downloader; progress := demo_tracker;
     _interrupted := false |}.

(** Every stage succeeds, nothing fails, no signal. *)
Definition demo_item : @ItemEnv string string :=
  {| env_extract_info := InfoDict "meta";
     env_download := λ _, DlReturns (Some "mp3");
     env_whisper := WhisperDict "text";
     env_remove_fails := false;
     env_utcnow := "2024-01-01T00:00:00";
     env_save_fault := NoFault;
     env_sigint := false |}.

Definition demo_disk : filesystem :=
  {[ ".tiktok_progress.json" := "{}" ]}.

Definition demo_disk_A : filesystem :=
  {[ ".tiktok_progress.json" := "{A}" ]}.

Definition demo_world : nat -> @ItemEnv string string := λ _, demo_item.

(** SIGINT arrives while the first item is in the pipeline. *)
Definition demo_world_sigint : nat -> @ItemEnv string string :=
  λ k, {| env_extract_info := InfoDict "meta";
          env_download := λ _, DlReturns (Some "mp3");
          env_whisper := WhisperDict "text";
          env_remove_fails := false;
          env_utcnow := "2024-01-01T00:00:00";
          env_save_fault := NoFault;
          env_sigint := bool_decide (k = 0%nat) |}.

(** The transcription fails and [os.remove] raises [OSError]. *)
Definition demo_item_stuck : @ItemEnv string string :=
  {| env_extract_info := InfoDict "meta";
     env_download := λ _, DlReturns (Some "mp3");
     env_whisper := WhisperException "out of memory";
     env_remove_fails := true;
     env_utcnow := "2024-01-01T00:00:00";
     env_save_fault := NoFault;
     env_sigint := false |}.

(** yt-dlp answers: always a time-out; always a message that says
    "private" in lower case; a time-out and then a private video. *)
Definition demo_ydl_timeout : Z -> ydl_download_outcome :=
  λ _, DlDownloadError "timed out".

Definition demo_ydl_lowercase : Z -> ydl_download_outcome :=
  λ _, DlDownloadError "ERROR: this video is private".

Definition demo_ydl_private : Z -> ydl_download_outcome :=
  λ k, if k =? 0 then DlException "connection reset"
       else DlDownloadError "ERROR: Private video. Sign in".

Definition demo_marks : list (@mark_op string string) :=
  [MarkFailed "B" "Video is private"; MarkSuccess "A" demo_result_A].

Definition demo_marks_repeat : list (@mark_op string string) :=
  [MarkFailed "A" "timed out"; MarkFailed "A" "timed out"].

Definition demo_os : nat -> string * io_fault :=
  λ _, ("2024-01-01T00:00:00", NoFault).

(** ** The rest of the modules *)

(** *** Text *)

(** Python's [str.isspace] on one character; characters are code points
    below 256. *)
Definition is_space (c : ascii) : bool :=
  let n := nat_of_ascii c in
  ((9 <=? n) && (n <=? 13) || (28 <=? n) && (n <=? 32)
   || (n =? 133) || (n =? 160))%nat.

Fixpoint lstrip (s : string) : string :=
  match s with
  | EmptyString => EmptyString
  | String c rest => if is_space c then lstrip rest else s
  end.

Fixpoint rstrip (s : string) : string :=
  match s with
  | EmptyString => EmptyString
  | String c rest =>
      match rstrip rest with
      | EmptyString => if is_space c then EmptyString else String c EmptyString
      | kept => String c kept
      end
  end.

(** [str.strip()] *)
Definition strip (s : string) : string := rstrip (lstrip s).

(** The lines a text file yields when it is iterated: a line ends at
    ["\n"], ["\r\n"] or ["\r"], and the end is handed over as ["\n"]. *)
Fixpoint text_lines_from (line content : string) : list string :=
  match content with
  | EmptyString => if bool_decide (line = "") then [] else [line]
  | String c rest =>
      if Ascii.eqb c "010"%char
      then (line +:+ String "010"%char "") :: text_lines_from "" rest
      else if Ascii.eqb c "013"%char
      then match rest with
           | String c' rest' =>
               if Ascii.eqb c' "010"%char
               then (line +:+ String "010"%char "") :: text_lines_from "" rest'
               else (line +:+ String "010"%char "") :: text_lines_from "" rest
           | EmptyString => [line +:+ String "010"%char ""]
           end
      else text_lines_from (line +:+ String c "") rest
  end.

Definition text_lines (content : string) : list string :=
  text_lines_from "" content.

(** *** metadata.py: [_format_date] *)

Definition _format_date (date_str : option string) : option string :=
  match date_str with
  | Some s =>
      if negb (bool_decide (s = "")) && (String.length s =? 8)%nat
      then Some (substring 0 4 s +:+ "-" +:+ substring 4 2 s +:+ "-"
                 +:+ substring 6 (String.length s - 6) s)
      else date_str
  | None => None
  end.

(** *** cli.py: [load_urls] *)

(** The body of [for line in f]. *)
Fixpoint collect_urls (lines : list string) : list string :=
  match lines with
  | [] => []
  | line :: rest =>
      let url := strip line in
      if negb (bool_decide (url = "")) && negb (String.prefix "#" url)
      then url :: collect_urls rest
      else collect_urls rest
  end.

(** The test of [load_urls] on a stripped line. *)
Definition is_url_line (url : string) : Prop :=
  url ≠ "" ∧ String.prefix "#" url = false.

Definition load_urls (input_file : string) (fs : filesystem)
    : outcome (list string) :=
  match fs !! input_file with
  | None => Raised OSError
  | Some content => Returned (collect_urls (text_lines content))
  end.

(** The parsed command line. *)
Record Args : Type := mkArgs {
  args_input : string;
  args_output : string;
  args_model : string;
  args_resume : bool;
  args_progress_file : string
}.

(** How the process ends: [sys.exit(code)] or the return of [main] (code
    0), or an exception nobody catches. *)
Inductive exit : Type :=
  | Exit (code : Z)
  | Crashed (e : exn).

Definition TikTokDownloader_init (output_dir : option string)
    (mkdtemp : string) (max_retries : Z) : TikTokDownloader :=
  {| output_dir := match output_dir with
                   | Some dir => if bool_decide (dir = "") then mkdtemp else dir
                   | None => mkdtemp
                   end;
     max_retries := max_retries |}.

Section Reporting.

Context {Metadata Transcript : Type}.
Local Abbreviation Tracker := (@ProgressTracker Metadata Transcript).
Local Abbreviation Outcome := (@Result Metadata Transcript).

(** *** progress.py: [get_stats] and [cleanup] *)


(** [sum(1 for r in results if r.get("status") == "success")] *)
Definition count_success (rs : list Outcome) : Z :=
  Z.of_nat (length (filter (λ r, status r = "success") rs)).


(** [ProgressTracker.cleanup]: the progress file is removed; an [OSError]
    of [os.remove] is swallowed. *)
Definition progress_cleanup (remove_fails : bool) (t : Tracker)
    (fs : filesystem) : filesystem :=
  if path_exists (progress_file t) fs
  then (if remove_fails then fs else delete (progress_file t) fs)
  else fs.

(** *** cli.py: [save_output] and [main] *)

(** The dict of the final report. *)
Record ReportData : Type := mkReportData {
  generated_at : string;
  total_videos : Z;
  successful : Z;
  failed : Z;
  report_results : list Outcome
}.

Definition report_data (now : string) (rs : list Outcome) : ReportData :=
  let successful := count_success rs in
  {| generated_at := now +:+ "Z";
     total_videos := Z.of_nat (length rs);
     successful := successful;
     failed := Z.of_nat (length rs) - successful;
     report_results := rs |}.

(** [json.dump(output, f, indent=2, ensure_ascii=False)] *)
Variable report_dump : ReportData -> string.

Definition save_output (now : string) (fault : io_fault) (rs : list Outcome)
    (output_file : string) (fs : filesystem) : filesystem * outcome unit :=
  write_file fault output_file (report_dump (report_data now rs)) fs.

Definition TikTokTranscriber_init (model_name progress_file mkdtemp : string)
    : @TikTokTranscriber Metadata Transcript :=
  {| downloader := TikTokDownloader_init None mkdtemp 3;
     progress := ProgressTracker_init progress_file;
     _interrupted := false |}.

(** The outside world during one run of [main]: the items, SIGINT before
    the first item and after the last, the temporary directory, the clock
    and the disk at the report, [os.remove] at the final cleanup. *)
Record MainEnv : Type := mkMainEnv {
  main_world : nat -> @ItemEnv Metadata Transcript;
  main_sigint_first : bool;
  main_sigint_last : bool;
  main_mkdtemp : string;
  main_utcnow : string;
  main_report_fault : io_fault;
  main_remove_fails : bool
}.

Variable json_dump : @CheckpointData Metadata Transcript -> string.
Variable json_load : string -> @json_document Metadata Transcript.
Variable _extract_video_id : string -> string.

Definition main (args : Args) (env : MainEnv) (fs : filesystem)
    : filesystem * list event * exit :=
  if negb (path_exists (args_input args) fs) then (fs, [], Exit 1)
  else
    match load_urls (args_input args) fs with
    | Raised e => (fs, [], Crashed e)
    | Returned [] => (fs, [], Exit 1)
    | Returned urls =>
        let transcriber :=
          TikTokTranscriber_init (args_model args) (args_progress_file args)
            (main_mkdtemp env) in
        let '(s1, fs1, evs, o) :=
          process_batch json_dump json_load _extract_video_id
            (main_world env) (main_sigint_first env) urls (args_resume args)
            transcriber fs in
        match o with
        | Raised e => (fs1, evs, Crashed e)
        | Returned rs =>
            let '(fs2, written) :=
              save_output (main_utcnow env) (main_report_fault env) rs
                (args_output args) fs1 in
            match written with
            | Raised e => (fs2, evs, Crashed e)
            | Returned _ =>
                if _interrupted s1 || main_sigint_last env
                then (fs2, evs, Exit 0)
                else (progress_cleanup (main_remove_fails env) (progress s1) fs2,
                      evs, Exit 0)
            end
        end
    end.

End Reporting.

(** The checkpoint written at [now] for [t] reads back as [t]. *)
Definition reads_back {Metadata Transcript : Type}
    (json_dump : @CheckpointData Metadata Transcript -> string)
    (json_load : string -> @json_document Metadata Transcript)
    (now : string) (t : @ProgressTracker Metadata Transcript) : Prop :=
  ∃ processed,
    json_load (checkpoint_data json_dump now t)
      = JSONObject processed (results t) (failed_urls t) ∧
    list_to_set processed = processed_urls t.



(** A document that records its URLs only, read by [demo_load]. *)
Definition demo_dump_urls (d : @CheckpointData string string) : string :=
  "{" +:+ String.concat "," (map url (data_results d)) +:+ "}".

Definition demo_report_dump (r : @ReportData string string) : string :=
  String.concat "," (map url (report_results r)).

Definition demo_args : Args :=
  {| args_input := "urls.txt"; args_output := "out.json";
     args_model := "medium"; args_resume := false;
     args_progress_file := ".tiktok_progress.json" |}.

Definition demo_main_env : @MainEnv string string :=
  {| main_world := demo_world; main_sigint_first := false;
     main_sigint_last := false; main_mkdtemp := "/tmp/tiktok_audio_x";
     main_utcnow := "2024-01-01T00:00:00"; main_report_fault := NoFault;
     main_remove_fails := false |}.

(** The tracker of a run that finished ["A"]. *)
Definition demo_tracker_A : @ProgressTracker string string :=
  {| progress_file := ".tiktok_progress.json";
     processed_urls := {[ "A" ]};
     results := [demo_result_A];
     failed_urls := ∅ |}.

Definition demo_result_B : @Result string string :=
  {| url := "B"; status := "success"; metadata := Some (Filled "meta");
     transcript := Some (Filled "text"); error := None |}.

(** An input file: a URL, a comment, a blank line, a URL in blanks. *)
Definition demo_input : string :=
  "A" +:+ String "010"%char "# later" +:+ String "013"%char
      (String "010"%char "") +:+ String "010"%char "  B  "
      +:+ String "010"%char "".

Definition demo_input_disk : filesystem := {[ "urls.txt" := demo_input ]}.

(** The disk is full when the second item is saved. *)
Definition demo_world_disk_full : nat -> @ItemEnv string string :=
  λ k, {| env_extract_info := InfoDict "meta";
          env_download := λ _, DlReturns (Some "mp3");
          env_whisper := WhisperDict "text";
          env_remove_fails := false;
          env_utcnow := "2024-01-01T00:00:00";
          env_save_fault := if bool_decide (k = 1%nat) then WriteFails 5
                            else NoFault;
          env_sigint := false |}.

(** The report cannot be opened for writing. *)
Definition demo_main_env_no_report : @MainEnv string string :=
  {| main_world := demo_world; main_sigint_first := false;
     main_sigint_last := false; main_mkdtemp := "/tmp/tiktok_audio_x";
     main_utcnow := "2024-01-01T00:00:00"; main_report_fault := OpenFails;
     main_remove_fails := false |}.

(** yt-dlp: a reset connection, then a download that leaves no file. *)
Definition demo_ydl_no_file : Z -> ydl_download_outcome :=
  λ k, if k =? 0 then DlException "connection reset" else DlReturns None.

(** ** Properties *)

Section Properties.

Context {Metadata Transcript : Type}.
Variable json_dump : @CheckpointData Metadata Transcript -> string.

Local Abbreviation Tracker := (@ProgressTracker Metadata Transcript).

Lemma length_app_string (a b : string) :
  String.length (a +:+ b) = (String.length a + String.length b)%nat.
Proof. induction a as [|c a IH]; simpl; [reflexivity | now rewrite IH]. Qed.

(** The temporary file is never the checkpoint itself. *)
Lemma temp_file_fresh (t : Tracker) : temp_file t ≠ progress_file t.
Proof.
  unfold temp_file. intros E.
  apply (f_equal String.length) in E. rewrite length_app_string in E.
  simpl in E. lia.
Qed.

(** C2. [save] is atomic: whatever fails (the opening of the temporary file,
    the write after any number of characters, the replace), the call raises
    and only the temporary file may have changed, so the checkpoint at
    [progress_file] is what it was; when nothing fails, the checkpoint is
    the complete new document and the temporary file is gone.  The
    checkpoint is never a partial write. *)
Theorem save_is_atomic (now : string) (fault : io_fault) (t : Tracker)
    (fs fs' : filesystem) (o : outcome unit) :
  save json_dump now fault t fs = (fs', o) ->
  (∀ p, p ≠ temp_file t -> p ≠ progress_file t -> fs' !! p = fs !! p) ∧
  ((o = Raised OSError ∧ fault ≠ NoFault ∧
    fs' !! progress_file t = fs !! progress_file t)
   ∨
   (o = Returned tt ∧ fault = NoFault ∧
    fs' !! progress_file t = Some (checkpoint_data json_dump now t) ∧
    fs' !! temp_file t = None)).
Proof.
  pose proof (temp_file_fresh t) as Hne.
  unfold save, write_file, os_replace. intros E.
  destruct fault; simpl in E.
  - rewrite lookup_insert_eq in E. inversion E; subst; clear E. split.
    + intros p H1 H2.
      rewrite lookup_insert_ne, lookup_delete_ne, lookup_insert_ne; auto.
    + right. repeat split; auto.
      * apply lookup_insert_eq.
      * rewrite lookup_insert_ne, lookup_delete_eq; auto.
  - inversion E; subst; clear E. split; [auto|].
    left. repeat split; auto; discriminate.
  - inversion E; subst; clear E. split.
    + intros p H1 H2. rewrite lookup_insert_ne; auto.
    + left. repeat split; try discriminate. rewrite lookup_insert_ne; auto.
  - inversion E; subst; clear E. split.
    + intros p H1 H2. rewrite lookup_insert_ne; auto.
    + left. repeat split; try discriminate. rewrite lookup_insert_ne; auto.
Qed.

(** *** The two mutators *)

Lemma save_raises (now : string) (fault : io_fault) (t : Tracker)
    (fs : filesystem) :
  fault ≠ NoFault ->
  (save json_dump now fault t fs).2 = Raised OSError ∧
  (save json_dump now fault t fs).1 !! progress_file t = fs !! progress_file t.
Proof.
  pose proof (temp_file_fresh t) as Hne. intros Hf.
  unfold save, write_file, os_replace.
  destruct fault; [congruence| | |]; simpl; split; auto;
    rewrite lookup_insert_ne; auto.
Qed.

Lemma save_returns (now : string) (t : Tracker) (fs : filesystem) :
  (save json_dump now NoFault t fs).2 = Returned tt ∧
  (save json_dump now NoFault t fs).1 !! progress_file t
    = Some (checkpoint_data json_dump now t).
Proof.
  unfold save, write_file, os_replace. simpl.
  rewrite lookup_insert_eq. simpl. split; [reflexivity|].
  apply lookup_insert_eq.
Qed.

(** C10.  Both mutators change the tracker first and call [save] on the
    changed tracker.  When [save] fails, the exception leaves the mutator,
    the checkpoint on disk is the old one, and the tracker in memory keeps
    the identifier in the processed set, the outcome at the end of
    [results] and, for a failure, the entry of [failed_urls]. *)
Theorem mark_mutates_before_save (now : string) (fault : io_fault)
    (u : string) (result : Result) (err : string) (t : Tracker)
    (fs : filesystem) :
  fault ≠ NoFault ->
  let '(t1, fs1, o1) := mark_success json_dump now fault u result t fs in
  let '(t2, fs2, o2) := mark_failed json_dump now fault u err t fs in
  (save json_dump now fault t1 fs = (fs1, o1) ∧
   o1 = Raised OSError ∧
   fs1 !! progress_file t = fs !! progress_file t ∧
   u ∈ processed_urls t1 ∧
   results t1 = results t ++ [result])
  ∧
  (save json_dump now fault t2 fs = (fs2, o2) ∧
   o2 = Raised OSError ∧
   fs2 !! progress_file t = fs !! progress_file t ∧
   u ∈ processed_urls t2 ∧
   results t2 = results t ++
     [{| url := u; status := "failed"; metadata := None;
         transcript := None; error := Some err |}] ∧
   failed_urls t2 !! u = Some err).
Proof.
  intros Hf. unfold mark_success, mark_failed.
  set (t1 := {| progress_file := progress_file t;
                processed_urls := {[u]} ∪ processed_urls t;
                results := results t ++ [result];
                failed_urls := failed_urls t |}).
  set (t2 := {| progress_file := progress_file t;
                processed_urls := {[u]} ∪ processed_urls t;
                results := results t ++ _;
                failed_urls := <[u := err]> (failed_urls t) |}).
  destruct (save_raises now fault t1 fs Hf) as [Ho1 Hfs1].
  destruct (save_raises now fault t2 fs Hf) as [Ho2 Hfs2].
  destruct (save json_dump now fault t1 fs) as [fs1 o1] eqn:E1.
  destruct (save json_dump now fault t2 fs) as [fs2 o2] eqn:E2.
  simpl in *. repeat split; auto.
  - set_solver.
  - set_solver.
  - apply lookup_insert_eq.
Qed.

(** What one call does to the tracker in memory, whatever [save] does. *)
Lemma apply_mark_tracker (now : string) (fault : io_fault)
    (op : @mark_op Metadata Transcript) (t : Tracker) (fs : filesystem) :
  let t1 := (apply_mark json_dump now fault op t fs).1.1 in
  progress_file t1 = progress_file t ∧
  processed_urls t1 = {[op_url op]} ∪ processed_urls t ∧
  dom (failed_urls t1) ⊆ {[op_url op]} ∪ dom (failed_urls t) ∧
  ∃ r, results t1 = results t ++ [r] ∧
       (op_from_batch op -> status r = "success" -> url r = op_url op).
Proof.
  destruct op as [u result|u err]; simpl;
    unfold mark_success, mark_failed;
    destruct (save _ _ _ _ _) as [fs1 o]; simpl.
  - repeat split; [set_solver|]. exists result. auto.
  - repeat split.
    + rewrite dom_insert_L. set_solver.
    + eexists. split; [reflexivity|]. simpl. discriminate.
Qed.

Lemma apply_mark_invariant (now : string) (fault : io_fault)
    (op : @mark_op Metadata Transcript) (t : Tracker) (fs : filesystem) :
  op_from_batch op ->
  members_recorded t ->
  let t1 := (apply_mark json_dump now fault op t fs).1.1 in
  members_recorded t1 ∧
  (size (processed_urls t1) <= S (size (processed_urls t)))%nat ∧
  length (results t1) = S (length (results t)) ∧
  (op_url op ∉ processed_urls t ->
   size (processed_urls t1) = S (size (processed_urls t))).
Proof.
  intros Hop [Hdom Hres] t1.
  destruct (apply_mark_tracker now fault op t fs)
    as (_ & Hp & Hf & r & Hr & Hu).
  fold t1 in Hp, Hf, Hr. repeat split.
  - rewrite Hp. set_solver.
  - rewrite Hr, Hp. apply Forall_app. split.
    + eapply Forall_impl; [exact Hres|]. simpl. intros x Hx Hs. set_solver.
    + constructor; [|constructor]. intros Hs. rewrite (Hu Hop Hs). set_solver.
  - rewrite Hp, size_union_alt, size_singleton.
    assert (size (processed_urls t ∖ {[op_url op]}) <= size (processed_urls t))%nat
      by (apply subseteq_size; set_solver).
    lia.
  - rewrite Hr, length_app. simpl. lia.
  - intros Hnew. rewrite Hp, size_union, size_singleton by set_solver. lia.
Qed.

(** C7, amended.  From a state that satisfies the invariant, every sequence
    of marks, repeats included, keeps every failed identifier and every
    identifier with a success outcome in the processed set, and never has
    more processed identifiers than outcomes.  The two numbers stay equal
    when the marked identifiers are pairwise different and were not
    processed before. *)
Theorem marks_keep_invariant (os : nat -> string * io_fault) (k : nat)
    (ops : list (@mark_op Metadata Transcript)) (t : Tracker)
    (fs : filesystem) :
  Forall op_from_batch ops ->
  members_recorded t ->
  one_outcome_each t ->
  let t' := (apply_marks json_dump os k ops t fs).1.1 in
  members_recorded t' ∧
  (size (processed_urls t') <= length (results t'))%nat ∧
  (NoDup (map op_url ops) ->
   (∀ op, op ∈ ops -> op_url op ∉ processed_urls t) ->
   one_outcome_each t').
Proof.
  unfold one_outcome_each. intros Hops Hm Hsz.
  assert (size (processed_urls t) <= length (results t))%nat as Hle by lia.
  cut (let t' := (apply_marks json_dump os k ops t fs).1.1 in
       members_recorded t' ∧
       (size (processed_urls t') <= length (results t'))%nat ∧
       (size (processed_urls t) = length (results t) ->
        NoDup (map op_url ops) ->
        (∀ op, op ∈ ops -> op_url op ∉ processed_urls t) ->
        size (processed_urls t') = length (results t'))).
  { intros (H1 & H2 & H3).
    split; [exact H1 | split; [exact H2 | intros; apply H3; assumption]]. }
  clear Hsz. revert k t fs Hm Hle.
  induction Hops as [|op ops Hop Hops IH]; intros k t fs Hm Hle; simpl.
  - split; [exact Hm | split; [exact Hle | auto]].
  - destruct (apply_mark_invariant (os k).1 (os k).2 op t fs Hop Hm)
      as (Hm1 & Hle1 & Hlen1 & Hnew1).
    destruct (apply_mark_tracker (os k).1 (os k).2 op t fs)
      as (_ & Hp1 & _).
    destruct (apply_mark json_dump (os k).1 (os k).2 op t fs)
      as [[t1 fs1] o] eqn:E.
    simpl in Hm1, Hle1, Hlen1, Hnew1, Hp1.
    assert (size (processed_urls t1) <= length (results t1))%nat as Hle1'
      by lia.
    assert (size (processed_urls t) = length (results t) ->
            NoDup (map op_url (op :: ops)) ->
            (∀ op', op' ∈ op :: ops -> op_url op' ∉ processed_urls t) ->
            size (processed_urls t1) = length (results t1)) as Heq1.
    { intros Heq Hnd Hfresh. rewrite Hnew1, Hlen1; [lia|].
      apply Hfresh. set_solver. }
    destruct o as [[]|e]; simpl.
    + destruct (IH (S k) t1 fs1 Hm1 Hle1') as (G1 & G2 & G3).
      split; [exact G1 | split; [exact G2 |]].
      intros Heq Hnd Hfresh. apply G3.
      * now apply Heq1.
      * simpl in Hnd. now apply NoDup_cons in Hnd as [_ Hnd].
      * intros op' Hin. rewrite Hp1.
        simpl in Hnd. apply NoDup_cons in Hnd as [Hnotin _].
        assert (op_url op' ≠ op_url op).
        { intros Eq. apply Hnotin. rewrite <- Eq.
          apply list_elem_of_fmap. eauto. }
        assert (op_url op' ∉ processed_urls t) by (apply Hfresh; set_solver).
        set_solver.
    + split; [exact Hm1 | split; [exact Hle1' | exact Heq1]].
Qed.

(** *** The retry loop of [download_audio] *)

Variable _extract_video_id : string -> string.

Section RetryLoop.

Variable ydl : Z -> ydl_download_outcome.
Variable d : TikTokDownloader.
Variable u : string.

Local Abbreviation attempts_from := (download_attempts _extract_video_id ydl d u).

Lemma attempt_retried (a : Z) (rest : list Z) (fs : filesystem) r evs fs' :
  retryable (ydl a) = true ->
  a < max_retries d - 1 ->
  attempts_from rest fs = (r, evs, fs') ->
  attempts_from (a :: rest) fs
    = (r, EvDownload u a :: EvSleep (2 ^ a) :: evs, fs').
Proof.
  intros Hr Hlt E. simpl.
  apply Z.ltb_lt in Hlt.
  destruct (ydl a) as [c|msg|e]; simpl in Hr; try discriminate.
  - unfold terminal_error in Hr. apply negb_true_iff in Hr.
    rewrite Hr, Hlt, E. reflexivity.
  - rewrite Hlt, E. reflexivity.
Qed.

Lemma attempt_gives_up (a : Z) (rest : list Z) (fs : filesystem) :
  retryable (ydl a) = true ->
  max_retries d - 1 <= a ->
  attempts_from (a :: rest) fs
    = ((None, Some (last_failure (ydl a))), [EvDownload u a], fs).
Proof.
  intros Hr Hge. simpl.
  apply Z.ltb_ge in Hge.
  destruct (ydl a) as [c|msg|e]; simpl in Hr; try discriminate.
  - unfold terminal_error in Hr. apply negb_true_iff in Hr.
    rewrite Hr, Hge. reflexivity.
  - rewrite Hge. reflexivity.
Qed.

Lemma attempt_terminal (a : Z) (rest : list Z) (fs : filesystem) msg :
  ydl a = DlDownloadError msg ->
  terminal_error msg = true ->
  attempts_from (a :: rest) fs
    = ((None, Some "Video is private or unavailable"), [EvDownload u a], fs).
Proof.
  intros E Ht. simpl. rewrite E. unfold terminal_error in Ht.
  rewrite Ht. reflexivity.
Qed.

Lemma flat_map_snoc {A B} (f : A -> list B) (l : list A) (x : A) :
  flat_map f (l ++ [x]) = flat_map f l ++ f x.
Proof. rewrite flat_map_app. simpl. now rewrite app_nil_r. Qed.

(** After [k] retryable failures the loop is at attempt number [k], having
    slept after each of them. *)
Lemma rounds_then_rest (k c s : nat) (fs : filesystem) r evs fs' :
  (k < c)%nat ->
  Z.of_nat (s + c) = max_retries d ->
  (∀ j, (j < k)%nat -> retryable (ydl (Z.of_nat (s + j))) = true) ->
  attempts_from (map Z.of_nat (seq (s + k) (c - k))) fs = (r, evs, fs') ->
  attempts_from (map Z.of_nat (seq s c)) fs
    = (r, flat_map (λ j, [EvDownload u j; EvSleep (2 ^ j)])
            (map Z.of_nat (seq s k)) ++ evs, fs').
Proof.
  revert c s. induction k as [|k IH]; intros c s Hk Hn Hall E.
  - simpl. rewrite Nat.add_0_r, Nat.sub_0_r in E. exact E.
  - destruct c as [|c]; [lia|]. cbn [seq map flat_map].
    rewrite <- app_assoc. cbn [app].
    apply attempt_retried.
    + specialize (Hall 0%nat). rewrite Nat.add_0_r in Hall. apply Hall. lia.
    + lia.
    + apply IH.
      * lia.
      * rewrite <- Hn. f_equal. lia.
      * intros j Hj. replace (S s + j)%nat with (s + S j)%nat by lia.
        apply Hall. lia.
      * replace (S s + k)%nat with (s + S k)%nat by lia. exact E.
Qed.

Lemma rounds_from_start (k : nat) (fs : filesystem) r evs fs' :
  Z.of_nat k < max_retries d ->
  (∀ j, 0 <= j < Z.of_nat k -> retryable (ydl j) = true) ->
  attempts_from
    (map Z.of_nat (seq k (Z.to_nat (max_retries d) - k))) fs = (r, evs, fs') ->
  download_audio _extract_video_id ydl d u fs
    = (r, backoff_rounds u (Z.of_nat k) ++ evs, fs').
Proof.
  intros Hk Hall E. unfold download_audio, backoff_rounds, range.
  rewrite Nat2Z.id.
  apply (rounds_then_rest k (Z.to_nat (max_retries d)) 0).
  - lia.
  - simpl. lia.
  - intros j Hj. apply Hall. simpl. lia.
  - exact E.
Qed.

Lemma attempts_made_rounds (k : Z) (l : list event) :
  attempts_made (backoff_rounds u k ++ l) = range k ++ attempts_made l.
Proof.
  unfold backoff_rounds. induction (range k) as [|a rest IH]; [reflexivity|].
  simpl. unfold attempts_made in *. simpl. now rewrite IH.
Qed.

Lemma delays_rounds (k : Z) (l : list event) :
  delays (backoff_rounds u k ++ l) = map (λ j, 2 ^ j) (range k) ++ delays l.
Proof.
  unfold backoff_rounds. induction (range k) as [|a rest IH]; [reflexivity|].
  simpl. unfold delays in *. simpl. now rewrite IH.
Qed.

Lemma range_succ (k : Z) : 0 <= k -> range (k + 1) = range k ++ [k].
Proof.
  intros Hk. unfold range.
  replace (Z.to_nat (k + 1)) with (S (Z.to_nat k)) by lia.
  rewrite seq_S, map_app. simpl. now rewrite Z2Nat.id.
Qed.

Lemma powers_sorted (s n : nat) :
  StronglySorted Z.le (map (λ j, 2 ^ j) (map Z.of_nat (seq s n))).
Proof.
  revert s. induction n as [|n IH]; intros s; simpl; constructor.
  - apply IH.
  - apply List.Forall_forall. intros x Hx.
    apply in_map_iff in Hx as (j & <- & Hj).
    apply in_map_iff in Hj as (i & <- & Hi).
    apply in_seq in Hi. apply Z.pow_le_mono_r; lia.
Qed.

Lemma remaining_attempts (k : nat) :
  Z.of_nat k < max_retries d ->
  map Z.of_nat (seq k (Z.to_nat (max_retries d) - k))
    = Z.of_nat k
      :: map Z.of_nat (seq (S k) (Z.to_nat (max_retries d) - S k)).
Proof.
  intros Hk.
  replace (Z.to_nat (max_retries d) - k)%nat
    with (S (Z.to_nat (max_retries d) - S k)) by lia.
  reflexivity.
Qed.

(** What the loop does when every attempt fails with a retryable error. *)
Lemma all_attempts_fail (fs : filesystem) :
  0 < max_retries d ->
  (∀ k, 0 <= k < max_retries d -> retryable (ydl k) = true) ->
  download_audio _extract_video_id ydl d u fs
    = ((None, Some (last_failure (ydl (max_retries d - 1)))),
       backoff_rounds u (max_retries d - 1) ++ [EvDownload u (max_retries d - 1)],
       fs).
Proof.
  intros Hpos Hall.
  replace (max_retries d - 1) with (Z.of_nat (Z.to_nat (max_retries d - 1))) by lia.
  apply rounds_from_start.
  - lia.
  - intros j Hj. apply Hall. lia.
  - rewrite remaining_attempts by lia.
    apply attempt_gives_up; [apply Hall|]; lia.
Qed.

(** C4, amended.  A [DownloadError] whose message contains ["Private video"]
    or ["Video unavailable"] ends the loop at once, at whatever attempt [k]
    it happens and however many attempts remain: the result is the failure
    ["Video is private or unavailable"], attempt [k] is the last one made,
    and no sleep follows it.  At [k = 0] the download is attempted exactly
    once. *)
Theorem terminal_never_retried (k : Z) (msg : string) (fs : filesystem) :
  0 <= k < max_retries d ->
  (∀ j, 0 <= j < k -> retryable (ydl j) = true) ->
  ydl k = DlDownloadError msg ->
  terminal_error msg = true ->
  download_audio _extract_video_id ydl d u fs
    = ((None, Some "Video is private or unavailable"),
       backoff_rounds u k ++ [EvDownload u k], fs) ∧
  attempts_made (download_audio _extract_video_id ydl d u fs).1.2
    = range k ++ [k].
Proof.
  intros Hk Hall E Ht.
  assert (download_audio _extract_video_id ydl d u fs
    = ((None, Some "Video is private or unavailable"),
       backoff_rounds u k ++ [EvDownload u k], fs)) as R.
  { replace k with (Z.of_nat (Z.to_nat k)) at 1 2 by lia.
    apply rounds_from_start.
    - lia.
    - intros j Hj. apply Hall. lia.
    - rewrite remaining_attempts by lia.
      rewrite Z2Nat.id by lia. now apply attempt_terminal with (msg := msg). }
  split; [exact R|].
  rewrite R. cbn [fst snd]. now rewrite attempts_made_rounds.
Qed.

(** C5.  When every attempt fails with a retryable error, the download is
    attempted exactly [max_retries] times, numbered [0] to
    [max_retries - 1]; after attempt [k], for every [k] but the last, the
    loop sleeps [1 * 2 ^ k] seconds before the next attempt; the sleeps are
    non-decreasing. *)
Theorem always_retryable_schedule (fs : filesystem) :
  (∀ k, 0 <= k < max_retries d -> retryable (ydl k) = true) ->
  let evs := (download_audio _extract_video_id ydl d u fs).1.2 in
  attempts_made evs = range (max_retries d) ∧
  delays evs = map (λ k, 1 * 2 ^ k) (range (max_retries d - 1)) ∧
  StronglySorted Z.le (delays evs) ∧
  (0 < max_retries d ->
   evs = backoff_rounds u (max_retries d - 1)
         ++ [EvDownload u (max_retries d - 1)]).
Proof.
  intros Hall evs. subst evs.
  destruct (Z.lt_ge_cases 0 (max_retries d)) as [Hpos|Hneg].
  - rewrite (all_attempts_fail fs Hpos Hall). cbn [fst snd].
    rewrite attempts_made_rounds, delays_rounds. cbn.
    rewrite app_nil_r. repeat split.
    + replace (max_retries d) with (max_retries d - 1 + 1) at 3 by lia.
      rewrite range_succ by lia. reflexivity.
    + apply map_ext. intros a. lia.
    + apply powers_sorted.
  - unfold download_audio, range.
    replace (Z.to_nat (max_retries d)) with 0%nat by lia.
    replace (Z.to_nat (max_retries d - 1)) with 0%nat by lia.
    cbn. repeat split; [constructor | lia].
Qed.

(** C6, amended.  When every attempt fails with a retryable error, the
    final failure carries the error of the last attempt: ["Download failed: "]
    followed by the message of a [DownloadError], ["Unexpected error: "]
    followed by the message of any other exception.  The reason
    ["Max retries exceeded"] is returned only when [max_retries] allows no
    attempt at all. *)
Theorem exhausted_reports_last_failure (fs : filesystem) :
  (∀ k, 0 <= k < max_retries d -> retryable (ydl k) = true) ->
  (download_audio _extract_video_id ydl d u fs).1.1
    = (None, Some (if 0 <? max_retries d
                   then last_failure (ydl (max_retries d - 1))
                   else "Max retries exceeded")) ∧
  (0 < max_retries d ->
   last_failure (ydl (max_retries d - 1)) ≠ "Max retries exceeded").
Proof.
  intros Hall. split.
  - destruct (Z.ltb_spec 0 (max_retries d)) as [Hpos|Hneg].
    + now rewrite (all_attempts_fail fs Hpos Hall).
    + unfold download_audio, range.
      replace (Z.to_nat (max_retries d)) with 0%nat by lia. reflexivity.
  - intros Hpos. specialize (Hall (max_retries d - 1)).
    destruct (ydl (max_retries d - 1)); simpl in *.
    + assert (false = true) by (apply Hall; lia). discriminate.
    + discriminate.
    + discriminate.
Qed.

End RetryLoop.

(** *** The pipeline of one item *)

Section Pipeline.

Variable d : TikTokDownloader.
Variable u : string.

Lemma output_path_not_empty : output_path _extract_video_id d u ≠ "".
Proof.
  unfold output_path, path_join. intros E.
  apply (f_equal String.length) in E. revert E.
  repeat case_match; rewrite ?length_app_string; simpl; lia.
Qed.

(** [download_audio] returns a path and no error, or no path and an error
    that is not the empty string; its events belong to the fetch stage. *)
Lemma download_attempts_result ydl (attempts : list Z) (fs : filesystem)
    r evs fs' :
  download_attempts _extract_video_id ydl d u attempts fs = (r, evs, fs') ->
  Forall (λ e, stage_rank e = Some 1%nat) evs ∧
  ((∃ e, r = (None, Some e) ∧ truthy (Some e) = true) ∨
   (r = (Some (output_path _extract_video_id d u), None) ∧
    is_Some (fs' !! output_path _extract_video_id d u))).
Proof.
  revert r evs fs'. induction attempts as [|a rest IH]; intros r evs fs' E.
  - inversion E; subst. split; [constructor|]. left. eexists. split; reflexivity.
  - simpl in E.
    destruct (download_attempts _extract_video_id ydl d u rest fs)
      as [[r0 evs0] fs0] eqn:Erest.
    specialize (IH _ _ _ eq_refl) as [IHev IHres].
    destruct (ydl a) as [c|msg|e].
    + case_match eqn:Hex; inversion E; subst; clear E;
        (split; [repeat constructor|]).
      * right. split; [reflexivity|].
        unfold path_exists in Hex. now apply bool_decide_eq_true in Hex.
      * left. eexists. split; reflexivity.
    + repeat case_match; inversion E; subst; clear E;
        (split; [repeat constructor; auto|]); auto;
        left; eexists; (split; [reflexivity|]); reflexivity.
    + repeat case_match; inversion E; subst; clear E;
        (split; [repeat constructor; auto|]); auto;
        left; eexists; (split; [reflexivity|]); reflexivity.
Qed.

Lemma sorted_after_rank_one (evs tail : list event) :
  Forall (λ e, stage_rank e = Some 1%nat) evs ->
  StronglySorted stage_le tail ->
  Forall (λ e, ∃ n, stage_rank e = Some n ∧ (1 <= n)%nat) tail ->
  StronglySorted stage_le (evs ++ tail).
Proof.
  intros Hevs Htail Hge. induction Hevs as [|e evs He Hevs IH]; [exact Htail|].
  simpl. constructor; [exact IH|].
  apply List.Forall_forall. intros x Hx. apply in_app_iff in Hx as [Hx|Hx].
  - rewrite Forall_forall in Hevs. unfold stage_le.
    rewrite He, (Hevs x) by now apply list_elem_of_In. lia.
  - rewrite Forall_forall in Hge.
    destruct (Hge x) as (n & Hn & Hle); [now apply list_elem_of_In|].
    unfold stage_le. rewrite He, Hn. exact Hle.
Qed.

Lemma fetch_events_only (evs : list event) :
  Forall (λ e, stage_rank e = Some 1%nat) evs ->
  items_started evs = [] ∧ transcriptions evs = [].
Proof.
  intros H. induction H as [|e evs He _ [IH1 IH2]]; [split; reflexivity|].
  unfold items_started, transcriptions in *. simpl.
  destruct e; try discriminate; simpl; auto.
Qed.

Lemma omap_cons_app {A} (f : event -> option A) e (evs tail : list event) :
  omap f (e :: evs ++ tail) = omap f [e] ++ omap f evs ++ omap f tail.
Proof.
  change (e :: evs ++ tail) with ([e] ++ evs ++ tail). now rewrite !omap_app.
Qed.

(** The cases of [process_url], by what the stages return. *)
Lemma process_url_cases (w : @ItemEnv Metadata Transcript) (fs : filesystem) :
  (∃ reason,
     extract (env_extract_info w) = HasError reason ∧
     process_url _extract_video_id w d u fs
       = ({| url := u; status := "failed"; metadata := Some EmptyDict;
             transcript := Some EmptyDict; error := Some reason |},
          [EvExtract u], fs))
  ∨ (∃ m reason evs fs1,
     extract (env_extract_info w) = NoError m ∧
     download_audio _extract_video_id (env_download w) d u fs
       = ((None, Some reason), evs, fs1) ∧
     Forall (λ e, stage_rank e = Some 1%nat) evs ∧
     process_url _extract_video_id w d u fs
       = ({| url := u; status := "failed"; metadata := Some (Filled m);
             transcript := Some EmptyDict; error := Some reason |},
          EvExtract u :: evs, fs1))
  ∨ (∃ m evs fs1 r,
     extract (env_extract_info w) = NoError m ∧
     download_audio _extract_video_id (env_download w) d u fs
       = ((Some (output_path _extract_video_id d u), None), evs, fs1) ∧
     Forall (λ e, stage_rank e = Some 1%nat) evs ∧
     is_Some (fs1 !! output_path _extract_video_id d u) ∧
     match transcribe (env_whisper w) with
     | HasError reason =>
         r = {| url := u; status := "failed"; metadata := Some (Filled m);
                transcript := Some EmptyDict; error := Some reason |}
     | NoError t =>
         r = {| url := u; status := "success"; metadata := Some (Filled m);
                transcript := Some (Filled t); error := None |}
     end ∧
     process_url _extract_video_id w d u fs
       = (r,
          EvExtract u :: evs
            ++ [EvTranscribe (Some (output_path _extract_video_id d u));
                EvCleanup (Some (output_path _extract_video_id d u))],
          cleanup (env_remove_fails w)
            (Some (output_path _extract_video_id d u)) fs1)).
Proof.
  unfold process_url.
  destruct (extract (env_extract_info w)) as [reason|m].
  { left. eauto. }
  right.
  destruct (download_audio _extract_video_id (env_download w) d u fs)
    as [[[audio_path err] evs] fs1] eqn:E.
  unfold download_audio in E.
  destruct (download_attempts_result _ _ _ _ _ _ E)
    as [Hev [(e & [= -> ->] & Ht)|[[= -> ->] Hs]]].
  - left. exists m, e, evs, fs1. cbn beta iota zeta. rewrite Ht. auto.
  - right. exists m, evs, fs1. cbn beta iota zeta. cbn [truthy].
    eexists. repeat split; eauto.
    destruct (transcribe (env_whisper w)); reflexivity.
Qed.

(** C3.  The events of one item are ordered by stage: the metadata call,
    then the download attempts, then the transcription.  The first stage
    that fails decides the outcome: when the metadata call fails it is the
    only event and its reason is the error of the result; when the download
    fails no transcription is called and its reason is the error of the
    result; when the transcription fails its reason is the error of the
    result; the status is ["success"] only when the three succeed. *)
Theorem pipeline_in_order_short_circuit (w : @ItemEnv Metadata Transcript)
    (fs : filesystem) :
  let '(r, evs, _) := process_url _extract_video_id w d u fs in
  let fetched := (download_audio _extract_video_id (env_download w) d u fs).1.1 in
  StronglySorted stage_le evs ∧
  items_started evs = [u] ∧
  match extract (env_extract_info w) with
  | HasError reason =>
      evs = [EvExtract u] ∧ status r = "failed" ∧ error r = Some reason
  | NoError m =>
      match fetched.2 with
      | Some reason =>
          transcriptions evs = [] ∧
          status r = "failed" ∧ error r = Some reason
      | None =>
          transcriptions evs = [fetched.1] ∧
          match transcribe (env_whisper w) with
          | HasError reason => status r = "failed" ∧ error r = Some reason
          | NoError t =>
              status r = "success" ∧ error r = None ∧
              metadata r = Some (Filled m) ∧ transcript r = Some (Filled t)
          end
      end
  end.
Proof.
  pose proof fetch_events_only as Hnone.
  pose proof (@omap_cons_app) as Hsplit.
  destruct (process_url_cases w fs)
    as [(reason & Hx & ->)
       |[(m & reason & evs & fs1 & Hx & Hd & Hev & ->)
        |(m & evs & fs1 & r & Hx & Hd & Hev & _ & Hr & ->)]];
    rewrite Hx; cbn zeta.
  - repeat split; repeat constructor.
  - rewrite Hd. cbn [fst snd].
    destruct (Hnone _ Hev) as [H1 H2]. repeat split.
    + rewrite <- (app_nil_r evs). constructor.
      * apply sorted_after_rank_one; [exact Hev | constructor | constructor].
      * rewrite app_nil_r. eapply Forall_impl; [exact Hev|].
        intros e He. unfold stage_le. rewrite He. simpl. lia.
    + unfold items_started in *.
      rewrite <- (app_nil_r evs), Hsplit, H1. reflexivity.
    + unfold transcriptions in *.
      rewrite <- (app_nil_r evs), Hsplit, H2. reflexivity.
  - rewrite Hd. cbn [fst snd].
    destruct (Hnone _ Hev) as [H1 H2]. repeat split.
    + constructor.
      * apply sorted_after_rank_one; [exact Hev | |].
        -- repeat constructor; unfold stage_le; simpl; lia.
        -- repeat constructor; eexists; (split; [reflexivity|]); lia.
      * apply Forall_app. split.
        -- eapply Forall_impl; [exact Hev|].
           intros e He. unfold stage_le. rewrite He. simpl. lia.
        -- repeat constructor; unfold stage_le; simpl; lia.
    + unfold items_started in *. rewrite Hsplit, H1. reflexivity.
    + unfold transcriptions in *. rewrite Hsplit, H2. reflexivity.
    + destruct (transcribe (env_whisper w)); subst r; repeat split.
Qed.

(** C9, amended.  When the download succeeded, [cleanup] is called on the
    audio file as the last event of the item, after the transcription,
    whatever the transcription returned; the file is gone when [process_url]
    returns unless [os.remove] itself failed, in which case the error is
    swallowed and the file system is left as the download made it. *)
Theorem audio_cleanup_on_every_path (w : @ItemEnv Metadata Transcript)
    (fs fs1 : filesystem) (m : Metadata) (p : string) (dl_evs : list event) :
  extract (env_extract_info w) = NoError m ->
  download_audio _extract_video_id (env_download w) d u fs
    = ((Some p, None), dl_evs, fs1) ->
  let '(_, evs, fs') := process_url _extract_video_id w d u fs in
  evs = EvExtract u :: dl_evs ++ [EvTranscribe (Some p); EvCleanup (Some p)] ∧
  fs' = cleanup (env_remove_fails w) (Some p) fs1 ∧
  (env_remove_fails w = false -> fs' !! p = None) ∧
  (env_remove_fails w = true -> fs' = fs1).
Proof.
  intros Hx Hd.
  destruct (process_url_cases w fs)
    as [(reason & Hx' & _)
       |[(m' & reason & evs & fs1' & _ & Hd' & _)
        |(m' & evs & fs1' & r & _ & Hd' & _ & Hs & _ & ->)]];
    [congruence | congruence |].
  rewrite Hd in Hd'. inversion Hd'; subst. clear Hd'.
  pose proof output_path_not_empty as Hne.
  unfold cleanup, path_exists.
  rewrite bool_decide_eq_false_2 by exact Hne.
  rewrite bool_decide_eq_true_2 by exact Hs. simpl.
  repeat split.
  - intros ->. apply lookup_delete_eq.
  - intros ->. reflexivity.
Qed.

(** What the loop needs to know about [process_url]. *)
Lemma process_url_summary (w : @ItemEnv Metadata Transcript) (fs : filesystem) :
  url (process_url _extract_video_id w d u fs).1.1 = u ∧
  item_events u (process_url _extract_video_id w d u fs).1.2 ∧
  items_started (process_url _extract_video_id w d u fs).1.2 = [u].
Proof.
  assert (∀ evs, Forall (λ e, stage_rank e = Some 1%nat) evs ->
                 Forall (λ e, is_Some (stage_rank e)) evs) as Hrank.
  { intros evs H. eapply Forall_impl; [exact H|]. intros e ->. eauto. }
  destruct (process_url_cases w fs)
    as [(reason & _ & ->)
       |[(m & reason & evs & fs1 & _ & _ & Hev & ->)
        |(m & evs & fs1 & r & _ & _ & Hev & _ & Hr & ->)]];
    cbn [fst snd]; (split; [|split; [split; [reflexivity|]|]]).
  - reflexivity.
  - repeat constructor. simpl. eauto.
  - reflexivity.
  - reflexivity.
  - constructor; [simpl; eauto | now apply Hrank].
  - destruct (fetch_events_only _ Hev) as [H1 _]. unfold items_started in *.
    rewrite <- (app_nil_r evs), omap_cons_app, H1. reflexivity.
  - destruct (transcribe (env_whisper w)); now subst r.
  - constructor; [simpl; eauto|]. apply Forall_app. split; [now apply Hrank|].
    repeat constructor; simpl; eauto.
  - destruct (fetch_events_only _ Hev) as [H1 _]. unfold items_started in *.
    rewrite omap_cons_app, H1. reflexivity.
Qed.

End Pipeline.

(** *** The loop over the items *)

Variable json_load : string -> @json_document Metadata Transcript.

Section Batch.

Variable world : nat -> @ItemEnv Metadata Transcript.

Local Abbreviation sigint := (λ i, env_sigint (world i)).
Local Abbreviation loop := (batch_loop json_dump _extract_video_id world).

(** One iteration: what it does to the tracker, the flag, the trace and the
    disk. *)
Lemma loop_body_summary (w : @ItemEnv Metadata Transcript) (u : string)
    (s : TikTokTranscriber) (fs : filesystem) :
  ∃ s1 fs1 body saved r,
    loop_body json_dump _extract_video_id w u s fs
      = (s1, fs1, body ++ [EvSave (progress_file (progress s))], saved) ∧
    downloader s1 = downloader s ∧
    progress_file (progress s1) = progress_file (progress s) ∧
    processed_urls (progress s1) = {[u]} ∪ processed_urls (progress s) ∧
    results (progress s1) = results (progress s) ++ [r] ∧
    url r = u ∧
    _interrupted s1 = _interrupted s || env_sigint w ∧
    item_events u body ∧
    items_started body = [u] ∧
    (env_save_fault w = NoFault ->
     saved = Returned tt ∧
     fs1 !! progress_file (progress s)
       = Some (checkpoint_data json_dump (env_utcnow w) (progress s1))) ∧
    (env_save_fault w ≠ NoFault -> saved = Raised OSError).
Proof.
  unfold loop_body.
  destruct (process_url_summary (downloader s) u w fs) as (Hurl & Hev & Hst).
  destruct (process_url _extract_video_id w (downloader s) u fs)
    as [[result evs] fs1] eqn:E.
  cbn [fst snd] in Hurl, Hev, Hst.
  case_bool_decide as Hstatus; unfold mark_success, mark_failed.
  - set (t1 := {| progress_file := _; processed_urls := _;
                  results := _; failed_urls := _ |}).
    pose proof (save_raises (env_utcnow w) (env_save_fault w) t1 fs1) as Hr.
    pose proof (save_returns (env_utcnow w) t1 fs1) as Hok.
    destruct (save json_dump (env_utcnow w) (env_save_fault w) t1 fs1)
      as [fs2 o] eqn:Es.
    exists {| downloader := downloader s; progress := t1;
              _interrupted := _interrupted s || env_sigint w |},
           fs2, evs, o, result.
    split_and!; try done.
    + intros Hf. rewrite Hf in Es. rewrite Es in Hok. exact Hok.
    + intros Hf. apply (Hr Hf).
  - set (t1 := {| progress_file := _; processed_urls := _;
                  results := _; failed_urls := _ |}).
    pose proof (save_raises (env_utcnow w) (env_save_fault w) t1 fs1) as Hr.
    pose proof (save_returns (env_utcnow w) t1 fs1) as Hok.
    destruct (save json_dump (env_utcnow w) (env_save_fault w) t1 fs1)
      as [fs2 o] eqn:Es.
    exists {| downloader := downloader s; progress := t1;
              _interrupted := _interrupted s || env_sigint w |},
           fs2, evs, o.
    eexists. split_and!; try done.
    + intros Hf. rewrite Hf in Es. rewrite Es in Hok. exact Hok.
    + intros Hf. apply (Hr Hf).
Qed.

Lemma items_started_block (body evs : list event) (p : string) :
  items_started (EvInterruptedCheck false :: body ++ EvSave p :: evs)
    = items_started body ++ items_started evs.
Proof.
  unfold items_started.
  change (EvInterruptedCheck false :: body ++ EvSave p :: evs)
    with ([EvInterruptedCheck false] ++ body ++ [EvSave p] ++ evs).
  now rewrite !omap_app.
Qed.

(** The loop over [done ++ rest], when no test before an item of [done]
    finds the flag set and every save of [done] succeeds: the items of
    [done] are handled one by one, then the loop goes on with [rest]. *)
Lemma batch_loop_run (done rest : list string) (k : nat)
    (s : TikTokTranscriber) (fs : filesystem) :
  (∀ j, (j < length done)%nat ->
        flag_before sigint k (_interrupted s) j = false) ->
  (∀ j, (j < length done)%nat -> env_save_fault (world (k + j)) = NoFault) ->
  ∃ s1 fs1 evs1 outs,
    (∀ s2 fs2 evs2 o,
       loop (k + length done)%nat rest s1 fs1 = (s2, fs2, evs2, o) ->
       loop k (done ++ rest) s fs = (s2, fs2, evs1 ++ evs2, o)) ∧
    downloader s1 = downloader s ∧
    progress_file (progress s1) = progress_file (progress s) ∧
    results (progress s1) = results (progress s) ++ outs ∧
    map url outs = done ∧
    processed_urls (progress s1)
      = list_to_set done ∪ processed_urls (progress s) ∧
    _interrupted s1 = flag_before sigint k (_interrupted s) (length done) ∧
    finished_trace (progress_file (progress s)) done evs1 ∧
    items_started evs1 = done ∧
    match done with
    | [] => s1 = s ∧ fs1 = fs
    | _ => durable json_dump (progress s1) fs1
    end.
Proof.
  revert k s fs. induction done as [|u done IH]; intros k s fs Hflag Hsave.
  - exists s, fs, [], []. split_and!; try done.
    + intros s2 fs2 evs2 o E. rewrite Nat.add_0_r in E. exact E.
    + now rewrite app_nil_r.
    + set_solver.
    + unfold flag_before. simpl. now rewrite orb_false_r.
    + constructor.
  - assert (_interrupted s = false) as Hs.
    { specialize (Hflag 0%nat). unfold flag_before in Hflag. simpl in Hflag.
      rewrite orb_false_r in Hflag. apply Hflag. lia. }
    destruct (loop_body_summary (world k) u s fs)
      as (s1 & fs1 & body & saved & r & Eb & Hd1 & Hp1 & Hu1 & Hr1 & Hurl
          & Hi1 & Hev & Hst & Hok & _).
    destruct Hok as [-> Hdisk].
    { specialize (Hsave 0%nat). rewrite Nat.add_0_r in Hsave.
      apply Hsave. simpl. lia. }
    destruct (IH (S k) s1 fs1) as
      (s2 & fs2 & evs2 & outs & Hrun & Hd2 & Hp2 & Hr2 & Hm2 & Hu2 & Hi2
       & Htr & Hit & Hlast).
    { intros j Hj. specialize (Hflag (S j)). unfold flag_before in *.
      simpl in Hflag. rewrite Hi1, <- orb_assoc. apply Hflag. simpl. lia. }
    { intros j Hj. specialize (Hsave (S j)).
      replace (S k + j)%nat with (k + S j)%nat by lia.
      apply Hsave. simpl. lia. }
    exists s2, fs2,
      (EvInterruptedCheck false
         :: body ++ EvSave (progress_file (progress s)) :: evs2),
      (r :: outs).
    split_and!.
    + intros s3 fs3 evs3 o E.
      replace (k + length (u :: done))%nat with (S k + length done)%nat in E
        by (simpl; lia).
      apply Hrun in E. cbn [app batch_loop]. rewrite Hs, Eb, E.
      rewrite <- !app_assoc. reflexivity.
    + congruence.
    + congruence.
    + rewrite Hr2, Hr1, <- app_assoc. reflexivity.
    + simpl. congruence.
    + rewrite Hu2, Hu1. set_solver.
    + rewrite Hi2, Hi1. unfold flag_before. simpl.
      now rewrite orb_assoc.
    + constructor; [exact Hev|]. now rewrite <- Hp1.
    + rewrite items_started_block, Hst, Hit. reflexivity.
    + destruct done as [|u' done'].
      * destruct Hlast as [-> ->]. exists (env_utcnow (world k)).
        rewrite Hp1. exact Hdisk.
      * exact Hlast.
Qed.

(** Whatever happens, the items the loop starts are the first items of its
    list, in order. *)
Lemma batch_loop_prefix (us : list string) (k : nat)
    (s : TikTokTranscriber) (fs : filesystem) :
  items_started (loop k us s fs).1.2 `prefix_of` us.
Proof.
  revert k s fs. induction us as [|u us IH]; intros k s fs; simpl.
  - apply prefix_nil.
  - destruct (_interrupted s); [apply prefix_nil|].
    destruct (loop_body_summary (world k) u s fs)
      as (s1 & fs1 & body & saved & r & Eb & _ & _ & _ & _ & _
          & _ & _ & Hst & _).
    rewrite Eb.
    assert (items_started
              (EvInterruptedCheck false
                 :: body ++ [EvSave (progress_file (progress s))]) = [u])
      as Hblock.
    { rewrite (items_started_block body [] _), Hst. reflexivity. }
    destruct saved as [[]|e].
    + specialize (IH (S k) s1 fs1).
      destruct (loop (S k) us s1 fs1) as [[[s2 fs2] evs2] o].
      cbn [fst snd] in *.
      change (EvInterruptedCheck false
                :: (body ++ [EvSave (progress_file (progress s))]) ++ evs2)
        with ((EvInterruptedCheck false
                :: body ++ [EvSave (progress_file (progress s))]) ++ evs2).
      unfold items_started in *. rewrite omap_app, Hblock.
      now apply prefix_cons.
    + cbn [fst snd]. rewrite Hblock. apply prefix_cons, prefix_nil.
Qed.

Lemma finished_then_stopped (p : string) (done : list string)
    (evs : list event) :
  finished_trace p done evs ->
  stopped_trace p done (evs ++ [EvInterruptedCheck true]).
Proof.
  induction 1 as [|u done body evs Hb _ IH]; simpl.
  - constructor.
  - rewrite <- app_assoc. simpl. now constructor.
Qed.

(** [process_batch] once the tracker and the pending list are known. *)
Lemma process_batch_loop (sigint0 : bool) (urls : list string) (resume : bool)
    (s : TikTokTranscriber) (fs : filesystem) (t0 : Tracker)
    (us : list string) :
  resume_state json_load urls resume (progress s) fs = Returned (t0, us) ->
  process_batch json_dump json_load _extract_video_id world sigint0 urls
    resume s fs
  = (let '(s1, fs1, evs, o) :=
       loop 0%nat us
         {| downloader := downloader s; progress := t0;
            _interrupted := _interrupted s || sigint0 |} fs in
     (s1, fs1, evs,
      match o with
      | Returned _ => Returned (results (progress s1))
      | Raised e => Raised e
      end)).
Proof.
  intros E. unfold process_batch. rewrite E. now destruct us.
Qed.

(** C1, amended.  On a resumed run whose checkpoint loads, the pending list
    is the input list without the identifiers of the loaded processed set:
    the order of the input is kept, every occurrence of a recorded
    identifier is dropped, and every occurrence of an identifier that is
    not recorded is kept.  The items the run starts are the first items of
    the pending list; when no test finds the flag set and no save fails,
    they are all of it, and the run appends one outcome per pending
    occurrence, in that order. *)
Theorem resume_skips_recorded (sigint0 : bool) (urls : list string)
    (s : TikTokTranscriber) (fs : filesystem) (t0 : Tracker) :
  load json_load (progress s) fs = LoadTrue t0 ->
  let pending := get_pending_urls urls t0 in
  let '(_, _, evs, o) :=
    process_batch json_dump json_load _extract_video_id world sigint0 urls
      true s fs in
  pending `sublist_of` urls ∧
  (∀ u, u ∈ pending ↔ u ∈ urls ∧ u ∉ processed_urls t0) ∧
  (∀ u, u ∉ processed_urls t0 ->
        filter (λ x, x = u) pending = filter (λ x, x = u) urls) ∧
  items_started evs `prefix_of` pending ∧
  ((∀ j, (j < length pending)%nat ->
         flag_before sigint 0 (_interrupted s || sigint0) j = false) ->
   (∀ j, (j < length pending)%nat -> env_save_fault (world j) = NoFault) ->
   items_started evs = pending ∧
   ∃ outs, o = Returned (results t0 ++ outs) ∧ map url outs = pending).
Proof.
  intros Hload pending.
  assert (resume_state json_load urls true (progress s) fs
          = Returned (t0, pending)) as E.
  { unfold resume_state. now rewrite Hload. }
  rewrite (process_batch_loop sigint0 urls true s fs t0 pending E).
  set (s0 := {| downloader := downloader s; progress := t0;
                _interrupted := _interrupted s || sigint0 |}).
  pose proof (batch_loop_prefix pending 0 s0 fs) as Hprefix.
  pose proof (batch_loop_run pending [] 0 s0 fs) as Hrun.
  destruct (loop 0%nat pending s0 fs) as [[[s1 fs1] evs] o] eqn:El.
  cbn [fst snd] in Hprefix. subst pending. unfold get_pending_urls in *.
  split_and!.
  - apply sublist_filter.
  - intros u. rewrite list_elem_of_filter. tauto.
  - intros u Hu. rewrite list_filter_filter. apply list_filter_iff.
    intros x. split; [tauto|]. intros ->. auto.
  - exact Hprefix.
  - intros Hflag Hsave.
    destruct (Hrun Hflag Hsave)
      as (s2 & fs2 & evs2 & outs & Hl & _ & _ & Hres & Hurl & _ & _ & _
          & Hst & _).
    specialize (Hl s2 fs2 [] (Returned tt) eq_refl).
    rewrite !app_nil_r in Hl. rewrite El in Hl. inversion Hl; subst.
    split; [exact Hst|]. exists outs. split; [|exact Hurl].
    now rewrite Hres.
Qed.

(** C8, amended.  The flag is tested once before each item and nowhere
    else.  When the test before the item [u] is the first that finds it
    set, the loop stops there: the trace is one block per item handled
    (test, events of the item, save) and the final test; the run returns
    the outcomes it had plus one per item handled; the checkpoint on disk
    is the document of the tracker returned, or, when no item was handled,
    the disk is untouched; [u] is not marked by this run, so it is in the
    processed set only when it was there before or is one of the items
    handled. *)
Theorem interruption_between_items (sigint0 : bool) (urls : list string)
    (resume : bool) (s : TikTokTranscriber) (fs : filesystem) (t0 : Tracker)
    (done : list string) (u : string) (todo : list string) :
  resume_state json_load urls resume (progress s) fs
    = Returned (t0, done ++ u :: todo) ->
  (∀ j, (j < length done)%nat ->
        flag_before sigint 0 (_interrupted s || sigint0) j = false) ->
  flag_before sigint 0 (_interrupted s || sigint0) (length done) = true ->
  (∀ j, (j < length done)%nat -> env_save_fault (world j) = NoFault) ->
  let '(s', fs', evs, o) :=
    process_batch json_dump json_load _extract_video_id world sigint0 urls
      resume s fs in
  o = Returned (results (progress s')) ∧
  (∃ outs, results (progress s') = results t0 ++ outs ∧ map url outs = done) ∧
  stopped_trace (progress_file t0) done evs ∧
  items_started evs = done ∧
  _interrupted s' = true ∧
  processed_urls (progress s') = list_to_set done ∪ processed_urls t0 ∧
  (u ∉ done -> u ∉ processed_urls t0 -> u ∉ processed_urls (progress s')) ∧
  match done with
  | [] => fs' = fs
  | _ => durable json_dump (progress s') fs'
  end.
Proof.
  intros E Hflag Hset Hsave.
  rewrite (process_batch_loop sigint0 urls resume s fs t0 _ E).
  set (s0 := {| downloader := downloader s; progress := t0;
                _interrupted := _interrupted s || sigint0 |}).
  destruct (batch_loop_run done (u :: todo) 0 s0 fs Hflag Hsave)
    as (s1 & fs1 & evs1 & outs & Hl & _ & _ & Hres & Hurl & Hproc & Hint
        & Htr & Hst & Hlast).
  cbn [_interrupted progress s0] in Hint, Hres, Hproc, Htr.
  rewrite Hset in Hint.
  rewrite (Hl s1 fs1 [EvInterruptedCheck true] (Returned tt))
    by (simpl; now rewrite Hint).
  split_and!.
  - reflexivity.
  - eauto.
  - now apply finished_then_stopped.
  - unfold items_started in *. rewrite omap_app, Hst. simpl.
    now rewrite app_nil_r.
  - exact Hint.
  - exact Hproc.
  - intros H1 H2. rewrite Hproc. set_solver.
  - destruct done; [now destruct Hlast | exact Hlast].
Qed.

End Batch.

End Properties.

(** ** The properties on the concrete world *)

(** [os.replace] fails: the old checkpoint is still there. *)
Lemma save_is_atomic_witness :
  let fs' := (save demo_dump "2024-01-01T00:00:00" ReplaceFails demo_tracker demo_disk).1 in
  let o := (save demo_dump "2024-01-01T00:00:00" ReplaceFails demo_tracker demo_disk).2 in
  save demo_dump "2024-01-01T00:00:00" ReplaceFails demo_tracker demo_disk = (fs', o) ∧
  fs' !! ".tiktok_progress.json" = Some "{}".
Proof.
  intros fs' o.
  assert (save demo_dump "2024-01-01T00:00:00" ReplaceFails demo_tracker demo_disk
          = (fs', o)) as E by reflexivity.
  split; [exact E|].
  destruct (save_is_atomic demo_dump _ _ _ _ _ _ E) as [_ [(_ & _ & H)|(_ & H & _)]].
  - exact H.
  - discriminate H.
Defined.

(** The write stops after three characters: the exception leaves
    [mark_failed], yet ["A"] is in the processed set. *)
Lemma mark_mutates_before_save_witness :
  WriteFails 3 ≠ NoFault ∧
  (mark_failed demo_dump "2024-01-01T00:00:00" (WriteFails 3) "A" "timed out"
     demo_tracker demo_disk).2 = Raised OSError ∧
  "A" ∈ processed_urls
          (mark_failed demo_dump "2024-01-01T00:00:00" (WriteFails 3) "A"
             "timed out" demo_tracker demo_disk).1.1.
Proof.
  assert (WriteFails 3 ≠ NoFault) as Hf by discriminate.
  split; [exact Hf|].
  pose proof (mark_mutates_before_save demo_dump "2024-01-01T00:00:00"
                (WriteFails 3) "A" demo_result_A "timed out" demo_tracker
                demo_disk Hf) as H.
  destruct (mark_success _ _ _ _ _ _ _) as [[t1 fs1] o1].
  destruct (mark_failed _ _ _ _ _ _ _) as [[t2 fs2] o2].
  destruct H as [_ (_ & Ho & _ & Hin & _)]. split; [exact Ho | exact Hin].
Defined.

(** A failure for ["B"] and a success for ["A"] from the empty tracker. *)
Lemma marks_keep_invariant_witness :
  Forall op_from_batch demo_marks ∧
  members_recorded demo_tracker ∧
  one_outcome_each demo_tracker ∧
  members_recorded
    (apply_marks demo_dump demo_os 0 demo_marks demo_tracker demo_disk).1.1 ∧
  one_outcome_each
    (apply_marks demo_dump demo_os 0 demo_marks demo_tracker demo_disk).1.1.
Proof.
  assert (Forall op_from_batch demo_marks) as H1
    by (repeat constructor).
  assert (members_recorded demo_tracker) as H2
    by (split; [set_solver | constructor]).
  assert (one_outcome_each demo_tracker) as H3 by reflexivity.
  destruct (marks_keep_invariant demo_dump demo_os 0 demo_marks demo_tracker
              demo_disk H1 H2 H3) as (G1 & _ & G3).
  split; [exact H1 | split; [exact H2 | split; [exact H3 | split; [exact G1|]]]].
  apply G3.
  - repeat constructor; set_solver.
  - intros op _. apply not_elem_of_empty.
Defined.

(** C7 as stated fails: marking ["A"] twice leaves one processed identifier
    and two outcomes. *)
Lemma marks_repeat_break_count :
  let t' := (apply_marks demo_dump demo_os 0 demo_marks_repeat demo_tracker
               demo_disk).1.1 in
  members_recorded demo_tracker ∧ one_outcome_each demo_tracker ∧
  size (processed_urls t') = 1%nat ∧ length (results t') = 2%nat ∧
  ¬ one_outcome_each t'.
Proof.
  split_and!.
  - split; [set_solver | constructor].
  - reflexivity.
  - reflexivity.
  - reflexivity.
  - unfold one_outcome_each. vm_compute. discriminate.
Qed.

(** A time-out, then a private video at the second attempt: two attempts,
    no third. *)
Lemma terminal_never_retried_witness :
  0 <= 1 < max_retries demo_downloader ∧
  demo_ydl_private 1 = DlDownloadError "ERROR: Private video. Sign in" ∧
  terminal_error "ERROR: Private video. Sign in" = true ∧
  download_audio demo_video_id demo_ydl_private demo_downloader "A" ∅
    = ((None, Some "Video is private or unavailable"),
       [EvDownload "A" 0; EvSleep 1; EvDownload "A" 1], ∅).
Proof.
  assert (0 <= 1 < max_retries demo_downloader) as H1 by (simpl; lia).
  assert (∀ j, 0 <= j < 1 -> retryable (demo_ydl_private j) = true) as H2.
  { intros j Hj. replace j with 0 by lia. reflexivity. }
  assert (demo_ydl_private 1 = DlDownloadError "ERROR: Private video. Sign in")
    as H3 by reflexivity.
  assert (terminal_error "ERROR: Private video. Sign in" = true) as H4
    by reflexivity.
  split; [exact H1 | split; [exact H3 | split; [exact H4 |]]].
  exact (proj1 (terminal_never_retried demo_video_id demo_ydl_private
                  demo_downloader "A" 1 _ ∅ H1 H2 H3 H4)).
Defined.

(** C4 as stated fails: a message that contains ["private"] is retried
    until the attempts run out. *)
Lemma lowercase_private_is_retried :
  demo_ydl_lowercase 0 = DlDownloadError "ERROR: this video is private" ∧
  contains "private" "ERROR: this video is private" = true ∧
  download_audio demo_video_id demo_ydl_lowercase demo_downloader "A" ∅
    = ((None, Some "Download failed: ERROR: this video is private"),
       [EvDownload "A" 0; EvSleep 1; EvDownload "A" 1; EvSleep 2;
        EvDownload "A" 2], ∅) ∧
  attempts_made
    (download_audio demo_video_id demo_ydl_lowercase demo_downloader "A" ∅).1.2
    = [0; 1; 2].
Proof. split_and!; reflexivity. Qed.

(** Three attempts that time out: sleeps of 1 and 2 seconds. *)
Lemma always_retryable_schedule_witness :
  (∀ k, 0 <= k < max_retries demo_downloader ->
        retryable (demo_ydl_timeout k) = true) ∧
  attempts_made
    (download_audio demo_video_id demo_ydl_timeout demo_downloader "A" ∅).1.2
    = [0; 1; 2] ∧
  delays
    (download_audio demo_video_id demo_ydl_timeout demo_downloader "A" ∅).1.2
    = [1; 2].
Proof.
  assert (∀ k, 0 <= k < max_retries demo_downloader ->
               retryable (demo_ydl_timeout k) = true) as H
    by (intros k _; reflexivity).
  split; [exact H|].
  destruct (always_retryable_schedule demo_video_id demo_ydl_timeout
              demo_downloader "A" ∅ H) as (G1 & G2 & _).
  split; [exact G1 | exact G2].
Defined.

Lemma exhausted_reports_last_failure_witness :
  (∀ k, 0 <= k < max_retries demo_downloader ->
        retryable (demo_ydl_timeout k) = true) ∧
  (download_audio demo_video_id demo_ydl_timeout demo_downloader "A" ∅).1.1
    = (None, Some "Download failed: timed out").
Proof.
  assert (∀ k, 0 <= k < max_retries demo_downloader ->
               retryable (demo_ydl_timeout k) = true) as H
    by (intros k _; reflexivity).
  split; [exact H|].
  exact (proj1 (exhausted_reports_last_failure demo_video_id demo_ydl_timeout
                  demo_downloader "A" ∅ H)).
Defined.

(** C6 as stated fails: after three time-outs the reason is the last error,
    and it does not speak of retries. *)
Lemma exhausted_reason_is_last_error :
  (∀ k, retryable (demo_ydl_timeout k) = true) ∧
  (download_audio demo_video_id demo_ydl_timeout demo_downloader "A" ∅).1.1
    = (None, Some "Download failed: timed out") ∧
  "Download failed: timed out" ≠ "Max retries exceeded" ∧
  contains "etries" "Download failed: timed out" = false.
Proof. split_and!; [intros k | | discriminate |]; reflexivity. Qed.

(** All three stages succeed for ["A"]. *)
Lemma pipeline_in_order_short_circuit_witness :
  (process_url demo_video_id demo_item demo_downloader "A" ∅).1.2
    = [EvExtract "A"; EvDownload "A" 0;
       EvTranscribe (Some "/tmp/tiktok_audio_x/A.mp3");
       EvCleanup (Some "/tmp/tiktok_audio_x/A.mp3")] ∧
  StronglySorted stage_le
    (process_url demo_video_id demo_item demo_downloader "A" ∅).1.2 ∧
  status (process_url demo_video_id demo_item demo_downloader "A" ∅).1.1
    = "success".
Proof.
  pose proof (pipeline_in_order_short_circuit demo_video_id demo_downloader
                "A" demo_item ∅) as H.
  destruct (process_url demo_video_id demo_item demo_downloader "A" ∅)
    as [[r evs] fs'] eqn:E.
  destruct H as (Hsorted & _ & Hcase).
  split_and!.
  - now inversion E.
  - exact Hsorted.
  - exact (proj1 (proj2 Hcase)).
Defined.

(** The audio file of ["A"] is gone when the pipeline returns. *)
Lemma audio_cleanup_on_every_path_witness :
  extract (env_extract_info demo_item) = NoError "meta" ∧
  download_audio demo_video_id (env_download demo_item) demo_downloader "A" ∅
    = ((Some "/tmp/tiktok_audio_x/A.mp3", None), [EvDownload "A" 0],
       {[ "/tmp/tiktok_audio_x/A.mp3" := "mp3" ]}) ∧
  (process_url demo_video_id demo_item demo_downloader "A" ∅).2
    !! "/tmp/tiktok_audio_x/A.mp3" = None.
Proof.
  assert (extract (env_extract_info demo_item) = NoError "meta") as H1
    by reflexivity.
  assert (download_audio demo_video_id (env_download demo_item)
            demo_downloader "A" ∅
          = ((Some "/tmp/tiktok_audio_x/A.mp3", None), [EvDownload "A" 0],
             {[ "/tmp/tiktok_audio_x/A.mp3" := "mp3" ]})) as H2
    by (vm_compute; reflexivity).
  split; [exact H1 | split; [exact H2|]].
  pose proof (audio_cleanup_on_every_path demo_video_id demo_downloader "A"
                demo_item ∅ _ _ _ _ H1 H2) as H.
  destruct (process_url demo_video_id demo_item demo_downloader "A" ∅)
    as [[r evs] fs'].
  destruct H as (_ & _ & Hgone & _). exact (Hgone eq_refl).
Defined.

(** C9 as stated fails: the download succeeded, the transcription failed,
    [os.remove] raised, and the audio file is still on disk when the
    pipeline returns. *)
Lemma audio_file_kept_when_remove_fails :
  download_audio demo_video_id (env_download demo_item_stuck) demo_downloader
    "A" ∅
    = ((Some "/tmp/tiktok_audio_x/A.mp3", None), [EvDownload "A" 0],
       {[ "/tmp/tiktok_audio_x/A.mp3" := "mp3" ]}) ∧
  releases (process_url demo_video_id demo_item_stuck demo_downloader "A" ∅).1.2
    = [Some "/tmp/tiktok_audio_x/A.mp3"] ∧
  (process_url demo_video_id demo_item_stuck demo_downloader "A" ∅).2
    !! "/tmp/tiktok_audio_x/A.mp3" = Some "mp3".
Proof. split_and!; vm_compute; reflexivity. Qed.

(** A resumed run over [A; B; A; C] when ["A"] is recorded: [B] and [C]
    are processed, and their outcomes follow the recorded one. *)
Lemma resume_skips_recorded_witness :
  load demo_load (progress demo_transcriber) demo_disk_A
    = LoadTrue {| progress_file := ".tiktok_progress.json";
                  processed_urls := {[ "A" ]};
                  results := [demo_result_A];
                  failed_urls := ∅ |} ∧
  items_started
    (process_batch demo_dump demo_load demo_video_id demo_world false
       ["A"; "B"; "A"; "C"] true demo_transcriber demo_disk_A).1.2
    = ["B"; "C"] ∧
  ∃ outs,
    (process_batch demo_dump demo_load demo_video_id demo_world false
       ["A"; "B"; "A"; "C"] true demo_transcriber demo_disk_A).2
      = Returned ([demo_result_A] ++ outs) ∧
    map url outs = ["B"; "C"].
Proof.
  assert (load demo_load (progress demo_transcriber) demo_disk_A
          = LoadTrue {| progress_file := ".tiktok_progress.json";
                        processed_urls := {[ "A" ]};
                        results := [demo_result_A];
                        failed_urls := ∅ |}) as H
    by (vm_compute; reflexivity).
  split; [exact H|].
  pose proof (resume_skips_recorded demo_dump demo_video_id demo_load
                demo_world false ["A"; "B"; "A"; "C"] demo_transcriber
                demo_disk_A _ H) as G.
  destruct (process_batch demo_dump demo_load demo_video_id demo_world false
              ["A"; "B"; "A"; "C"] true demo_transcriber demo_disk_A)
    as [[[s' fs'] evs] o].
  destruct G as (_ & _ & _ & _ & Hall).
  apply Hall.
  - intros [|[|j]] Hj; [reflexivity | reflexivity |].
    vm_compute in Hj. lia.
  - intros j _. reflexivity.
Defined.

(** C1 as stated fails: the checkpoint loads, nothing is recorded, the
    input names ["A"] twice, and the run records two outcomes for ["A"]. *)
Lemma resume_duplicate_processed_twice :
  load demo_load (progress demo_transcriber) demo_disk
    = LoadTrue demo_tracker ∧
  items_started
    (process_batch demo_dump demo_load demo_video_id demo_world false
       ["A"; "A"] true demo_transcriber demo_disk).1.2 = ["A"; "A"] ∧
  (process_batch demo_dump demo_load demo_video_id demo_world false
     ["A"; "A"] true demo_transcriber demo_disk).2
    = Returned [demo_result_A; demo_result_A].
Proof. split_and!; vm_compute; reflexivity. Qed.

(** SIGINT while ["A"] is in the pipeline: ["A"] is finished and saved, the
    loop stops before ["B"]. *)
Lemma interruption_between_items_witness :
  resume_state demo_load ["A"; "B"] false (progress demo_transcriber) demo_disk
    = Returned (demo_tracker, ["A"] ++ "B" :: []) ∧
  flag_before (λ i, env_sigint (demo_world_sigint i)) 0
    (_interrupted demo_transcriber || false) 1 = true ∧
  items_started
    (process_batch demo_dump demo_load demo_video_id demo_world_sigint false
       ["A"; "B"] false demo_transcriber demo_disk).1.2 = ["A"] ∧
  "B" ∉ processed_urls
          (progress
             (process_batch demo_dump demo_load demo_video_id
                demo_world_sigint false ["A"; "B"] false demo_transcriber
                demo_disk).1.1.1).
Proof.
  assert (resume_state demo_load ["A"; "B"] false (progress demo_transcriber)
            demo_disk
          = Returned (demo_tracker, ["A"] ++ "B" :: [])) as H1 by reflexivity.
  assert (∀ j, (j < length ["A"])%nat ->
               flag_before (λ i, env_sigint (demo_world_sigint i)) 0
                 (_interrupted demo_transcriber || false) j = false) as H2.
  { intros j Hj. replace j with 0%nat by (simpl in Hj; lia). reflexivity. }
  assert (flag_before (λ i, env_sigint (demo_world_sigint i)) 0
            (_interrupted demo_transcriber || false) (length ["A"]) = true)
    as H3 by reflexivity.
  assert (∀ j, (j < length ["A"])%nat ->
               env_save_fault (demo_world_sigint j) = NoFault) as H4
    by (intros j _; reflexivity).
  split; [exact H1 | split; [exact H3|]].
  pose proof (interruption_between_items demo_dump demo_video_id demo_load
                demo_world_sigint false ["A"; "B"] false demo_transcriber
                demo_disk demo_tracker ["A"] "B" [] H1 H2 H3 H4) as G.
  destruct (process_batch demo_dump demo_load demo_video_id demo_world_sigint
              false ["A"; "B"] false demo_transcriber demo_disk)
    as [[[s' fs'] evs] o].
  destruct G as (_ & _ & _ & Hst & _ & _ & Hpending & _).
  split; [exact Hst|]. apply Hpending.
  - rewrite list_elem_of_singleton. discriminate.
  - apply not_elem_of_empty.
Defined.

(** C8 as stated fails: the input names ["A"] twice and SIGINT arrives
    while the first ["A"] is in the pipeline; the loop stops before the
    second ["A"], and that item is in the processed set. *)
Lemma interrupted_before_recorded_duplicate :
  let run := process_batch demo_dump demo_load demo_video_id demo_world_sigint
               false ["A"; "A"] false demo_transcriber demo_disk in
  items_started run.1.2 = ["A"] ∧
  last run.1.2 = Some (EvInterruptedCheck true) ∧
  run.2 = Returned [demo_result_A] ∧
  "A" ∈ processed_urls (progress run.1.1.1).
Proof.
  split_and!; vm_compute; reflexivity.
Qed.

(** ** Further properties: text, dates and the list of URLs *)

Lemma lstrip_starts (s : string) (c : ascii) (rest : string) :
  lstrip s = String c rest -> is_space c = false.
Proof.
  induction s as [|a s IH]; simpl; [discriminate|].
  destruct (is_space a) eqn:Ea; [exact IH|].
  intros [= <- <-]. exact Ea.
Qed.

Lemma rstrip_keeps_head (c : ascii) (rest : string) :
  is_space c = false -> ∃ kept, rstrip (String c rest) = String c kept.
Proof.
  intros Hc. simpl. destruct (rstrip rest); rewrite ?Hc; eauto.
Qed.

Lemma rstrip_idempotent (s : string) : rstrip (rstrip s) = rstrip s.
Proof.
  induction s as [|c s IH]; [reflexivity|]. simpl.
  destruct (rstrip s) as [|k kept] eqn:E.
  - destruct (is_space c) eqn:Ec; [reflexivity|]. simpl. now rewrite Ec.
  - change (rstrip (String c (String k kept)))
      with (match rstrip (String k kept) with
            | EmptyString =>
                if is_space c then EmptyString else String c EmptyString
            | kept' => String c kept'
            end).
    now rewrite IH.
Qed.

Lemma strip_idempotent (s : string) : strip (strip s) = strip s.
Proof.
  unfold strip. destruct (lstrip s) as [|c rest] eqn:E; [reflexivity|].
  pose proof (lstrip_starts s c rest E) as Hc.
  destruct (rstrip_keeps_head c rest Hc) as [kept Hk].
  rewrite Hk. simpl. rewrite Hc. rewrite <- Hk. apply rstrip_idempotent.
Qed.

Lemma collect_urls_filter (lines : list string) :
  collect_urls lines = filter is_url_line (map strip lines).
Proof.
  induction lines as [|line lines IH]; [reflexivity|]. simpl.
  rewrite filter_cons, <- IH.
  destruct (decide (is_url_line (strip line))) as [[H1 H2]|Hn].
  - rewrite bool_decide_eq_false_2 by exact H1. rewrite H2. reflexivity.
  - case_bool_decide as H1; [reflexivity|]. simpl.
    destruct (String.prefix "#" (strip line)) eqn:H2; [reflexivity|].
    exfalso. apply Hn. split; assumption.
Qed.

(** X1.  [load_urls] on a file that exists returns, in the order of the
    file, the stripped form of every line that is neither blank nor, once
    stripped, a line that starts with ["#"]: no entry is empty, none
    starts with ["#"], none has white space at either end, and reading the
    list it returned as lines gives the same list again. *)
Theorem load_urls_clean (input_file : string) (fs : filesystem)
    (urls : list string) :
  load_urls input_file fs = Returned urls ->
  (∃ content, fs !! input_file = Some content ∧
     urls `sublist_of` map strip (text_lines content) ∧
     ∀ u, u ∈ urls ↔
          u ≠ "" ∧ String.prefix "#" u = false ∧
          ∃ line, line ∈ text_lines content ∧ strip line = u) ∧
  Forall (λ u, u ≠ "" ∧ String.prefix "#" u = false ∧ strip u = u) urls ∧
  collect_urls urls = urls.
Proof.
  unfold load_urls. destruct (fs !! input_file) as [content|]; [|discriminate].
  intros [= <-]. rewrite collect_urls_filter.
  set (lines := text_lines content).
  assert (∀ u, u ∈ filter is_url_line (map strip lines) ->
               u ≠ "" ∧ String.prefix "#" u = false ∧ strip u = u) as Hclean.
  { intros u Hu. apply list_elem_of_filter in Hu as [[H1 H2] Hin].
    apply list_elem_of_fmap in Hin as (line & -> & _).
    split_and!; auto. apply strip_idempotent. }
  split_and!.
  - exists content. split_and!; [reflexivity | apply sublist_filter |].
    intros u. rewrite list_elem_of_filter, list_elem_of_fmap.
    unfold is_url_line. split.
    + intros [[H1 H2] (line & -> & Hin)]. eauto.
    + intros (H1 & H2 & line & Hin & <-). eauto.
  - apply Forall_forall. exact Hclean.
  - rewrite collect_urls_filter.
    induction (filter is_url_line (map strip lines)) as [|u us IH];
      [reflexivity|].
    simpl. destruct (Hclean u) as (H1 & H2 & H3); [set_solver|].
    rewrite filter_cons. rewrite H3.
    rewrite decide_True by (split; assumption).
    f_equal. apply IH. intros v Hv. apply Hclean. set_solver.
Qed.

(** X2.  [_format_date] puts a dash after the fourth and after the sixth
    character of a string of exactly eight characters, whatever the
    characters are, so that the three parts put together again are the
    input; every other value, [None] and the empty string included, comes
    back unchanged. *)
Theorem format_date_inserts_dashes (s : string) :
  _format_date None = None ∧
  if (String.length s =? 8)%nat
  then ∃ year month day,
         _format_date (Some s)
           = Some (year +:+ "-" +:+ month +:+ "-" +:+ day) ∧
         s = year +:+ month +:+ day ∧
         String.length year = 4%nat ∧ String.length month = 2%nat ∧
         String.length day = 2%nat
  else _format_date (Some s) = Some s.
Proof.
  split; [reflexivity|].
  destruct (String.length s =? 8)%nat eqn:E.
  - apply Nat.eqb_eq in E.
    do 8 (destruct s as [|? s]; [discriminate E|]).
    destruct s; [|discriminate E].
    eexists (String _ (String _ (String _ (String _ "")))),
            (String _ (String _ "")), (String _ (String _ "")).
    split_and!; reflexivity.
  - unfold _format_date. rewrite E, andb_false_r. reflexivity.
Qed.

(** ** Further properties: the retry loop for any behaviour of yt-dlp *)

Section RetryLoopAnyAnswer.

Variable _extract_video_id : string -> string.
Variable ydl : Z -> ydl_download_outcome.
Variable d : TikTokDownloader.
Variable u : string.

(** From attempt [s] on, with [c] attempts left: some [k < c] more rounds
    end in a sleep, and attempt [s + k] is the last. *)
Lemma attempts_end_somewhere (c s : nat) (fs : filesystem) :
  (0 < c)%nat ->
  Z.of_nat (s + c) = max_retries d ->
  ∃ k, (k < c)%nat ∧
    (download_attempts _extract_video_id ydl d u
       (map Z.of_nat (seq s c)) fs).1.2
      = flat_map (λ j, [EvDownload u j; EvSleep (2 ^ j)])
          (map Z.of_nat (seq s k))
        ++ [EvDownload u (Z.of_nat (s + k))].
Proof.
  revert s. induction c as [|c IH]; intros s Hc Hn; [lia|].
  set (run := download_attempts _extract_video_id ydl d u
                (map Z.of_nat (seq s (S c))) fs).
  assert (run.1.2 = [EvDownload u (Z.of_nat s)] ->
          ∃ k, (k < S c)%nat ∧
               run.1.2
               = flat_map (λ j, [EvDownload u j; EvSleep (2 ^ j)])
                   (map Z.of_nat (seq s k))
                 ++ [EvDownload u (Z.of_nat (s + k))]) as Hstop.
  { intros E. exists 0%nat. split; [lia|].
    rewrite E, Nat.add_0_r. reflexivity. }
  assert ((Z.of_nat s <? max_retries d - 1) = true ->
          run.1.2
          = EvDownload u (Z.of_nat s) :: EvSleep (2 ^ Z.of_nat s)
            :: (download_attempts _extract_video_id ydl d u
                  (map Z.of_nat (seq (S s) c)) fs).1.2 ->
          ∃ k, (k < S c)%nat ∧
               run.1.2
               = flat_map (λ j, [EvDownload u j; EvSleep (2 ^ j)])
                   (map Z.of_nat (seq s k))
                 ++ [EvDownload u (Z.of_nat (s + k))]) as Hgo.
  { intros Hlt E. apply Z.ltb_lt in Hlt.
    destruct (IH (S s)) as (k & Hk & E'); [lia | lia |].
    exists (S k). split; [lia|].
    rewrite E, E'. cbn [seq map flat_map app].
    replace (s + S k)%nat with (S s + k)%nat by lia. reflexivity. }
  subst run. cbn [seq map download_attempts] in *.
  destruct (ydl (Z.of_nat s)) as [created|msg|e].
  - apply Hstop. now case_match.
  - destruct (contains "Private video" msg || contains "Video unavailable" msg).
    + now apply Hstop.
    + destruct (Z.of_nat s <? max_retries d - 1) eqn:Hlt.
      * apply Hgo; [reflexivity|].
        now destruct (download_attempts _ _ _ _ (map Z.of_nat (seq (S s) c)) fs)
          as [[r evs] fs'].
      * now apply Hstop.
  - destruct (Z.of_nat s <? max_retries d - 1) eqn:Hlt.
    + apply Hgo; [reflexivity|].
      now destruct (download_attempts _ _ _ _ (map Z.of_nat (seq (S s) c)) fs)
        as [[r evs] fs'].
    + now apply Hstop.
Qed.

(** X3.  Whatever yt-dlp answers, [download_audio] makes no attempt when
    [max_retries] is not positive, and otherwise some number [n] of
    attempts between 1 and [max_retries], numbered from 0, with a sleep of
    [2 ^ k] seconds after each attempt [k] but the last and no other
    sleep. *)
Theorem download_never_exceeds_max_retries (fs : filesystem) :
  let evs := (download_audio _extract_video_id ydl d u fs).1.2 in
  (max_retries d <= 0 ∧ evs = []) ∨
  (∃ n, 1 <= n <= max_retries d ∧
        evs = backoff_rounds u (n - 1) ++ [EvDownload u (n - 1)] ∧
        attempts_made evs = range n ∧
        delays evs = map (λ k, 2 ^ k) (range (n - 1))).
Proof.
  cbn zeta. unfold download_audio, range.
  destruct (Z.le_gt_cases (max_retries d) 0) as [Hle|Hgt].
  - left. split; [exact Hle|].
    replace (Z.to_nat (max_retries d)) with 0%nat by lia. reflexivity.
  - right.
    destruct (attempts_end_somewhere (Z.to_nat (max_retries d)) 0 fs)
      as (k & Hk & E); [lia | simpl; lia |].
    exists (Z.of_nat k + 1). split; [lia|].
    rewrite E. unfold backoff_rounds, range.
    replace (Z.of_nat k + 1 - 1) with (Z.of_nat k) by lia.
    rewrite Nat2Z.id. simpl (0 + k)%nat. split; [reflexivity|].
    pose proof (attempts_made_rounds u (Z.of_nat k)
                  [EvDownload u (Z.of_nat k)]) as Ha.
    pose proof (delays_rounds u (Z.of_nat k)
                  [EvDownload u (Z.of_nat k)]) as Hd.
    unfold backoff_rounds, range in Ha, Hd. rewrite Nat2Z.id in Ha, Hd.
    rewrite Ha, Hd. cbn. rewrite app_nil_r. split; [|reflexivity].
    replace (Z.to_nat (Z.of_nat k + 1)) with (S k) by lia.
    now rewrite seq_S, map_app.
Qed.

(** X4.  The pair [download_audio] returns is a path with no error or an
    error with no path, never both and never neither: the path is the
    ".mp3" file of the item in [output_dir] and that file exists when the
    call returns; the error is never the empty string, so the test
    [if error:] of [process_url] never takes a failure for a success. *)
Theorem download_returns_path_or_error (fs : filesystem) :
  let '((audio_path, error), _, fs') :=
    download_audio _extract_video_id ydl d u fs in
  (audio_path = Some (output_path _extract_video_id d u) ∧ error = None ∧
   is_Some (fs' !! output_path _extract_video_id d u))
  ∨ (audio_path = None ∧ ∃ reason, error = Some reason ∧ reason ≠ "").
Proof.
  destruct (download_audio _extract_video_id ydl d u fs)
    as [[[audio_path err] evs] fs'] eqn:E.
  unfold download_audio in E.
  destruct (download_attempts_result _extract_video_id d u ydl _ _ _ _ _ E)
    as [_ [(reason & [= -> ->] & Ht)|[[= -> ->] Hs]]].
  - right. split; [reflexivity|]. exists reason. split; [reflexivity|].
    simpl in Ht. intros ->. discriminate Ht.
  - left. auto.
Qed.

(** X5.  An attempt on which yt-dlp returns ends the loop, at whatever
    attempt [k] it happens after [k] retryable failures: with the audio
    file in place the result is its path, without it the result is the
    error ["Audio file not created"], which is not retried. *)
Theorem download_stops_when_ydl_returns (k : Z) (created : option string)
    (fs : filesystem) :
  0 <= k < max_retries d ->
  (∀ j, 0 <= j < k -> retryable (ydl j) = true) ->
  ydl k = DlReturns created ->
  let fs1 := match created with
             | Some audio => <[output_path _extract_video_id d u := audio]> fs
             | None => fs
             end in
  download_audio _extract_video_id ydl d u fs
    = (if path_exists (output_path _extract_video_id d u) fs1
       then (Some (output_path _extract_video_id d u), None)
       else (None, Some "Audio file not created"),
       backoff_rounds u k ++ [EvDownload u k], fs1).
Proof.
  intros Hk Hall E fs1.
  replace k with (Z.of_nat (Z.to_nat k)) at 1 2 by lia.
  apply rounds_from_start.
  - lia.
  - intros j Hj. apply Hall. lia.
  - rewrite remaining_attempts by lia. rewrite Z2Nat.id by lia.
    cbn [download_attempts]. rewrite E. fold fs1.
    now destruct (path_exists (output_path _extract_video_id d u) fs1).
Qed.

End RetryLoopAnyAnswer.

(** ** Further properties: the checkpoint store *)

Section CheckpointStore.

Context {Metadata Transcript : Type}.
Variable json_dump : @CheckpointData Metadata Transcript -> string.

Local Abbreviation Tracker := (@ProgressTracker Metadata Transcript).

(** X7.  A [save] that succeeds wipes out what an earlier failed [save]
    left behind: after a failed [save] and then a successful one the file
    system is the one the successful [save] alone would have produced, in
    particular no temporary file stays. *)
Theorem save_after_failed_save (now1 now2 : string) (fault : io_fault)
    (t1 t2 : Tracker) (fs : filesystem) :
  fault ≠ NoFault ->
  progress_file t1 = progress_file t2 ->
  save json_dump now2 NoFault t2 (save json_dump now1 fault t1 fs).1
    = save json_dump now2 NoFault t2 fs ∧
  (save json_dump now2 NoFault t2 (save json_dump now1 fault t1 fs).1).1
    !! temp_file t2 = None.
Proof.
  intros Hf Hfile.
  assert (temp_file t1 = temp_file t2) as Htemp
    by (unfold temp_file; now rewrite Hfile).
  pose proof (temp_file_fresh t2) as Hne.
  assert ((save json_dump now2 NoFault t2 fs).1 !! temp_file t2 = None) as Hgone.
  { unfold save, write_file, os_replace. simpl.
    rewrite lookup_insert_eq. simpl.
    rewrite lookup_insert_ne, lookup_delete_eq; auto. }
  assert (save json_dump now2 NoFault t2 (save json_dump now1 fault t1 fs).1
          = save json_dump now2 NoFault t2 fs) as Hsame.
  { unfold save at 2. unfold write_file.
    destruct fault; [congruence| | |]; simpl; [reflexivity| |];
      unfold save, write_file, os_replace; simpl;
      rewrite !lookup_insert_eq, Htemp, insert_insert_eq; reflexivity. }
  split; [exact Hsame|]. rewrite Hsame. exact Hgone.
Qed.



End CheckpointStore.

Section ReadBack.

Context {Metadata Transcript : Type}.
Variable json_dump : @CheckpointData Metadata Transcript -> string.
Variable json_load : string -> @json_document Metadata Transcript.

Local Abbreviation Tracker := (@ProgressTracker Metadata Transcript).

(** What [load] returns from a disk whose checkpoint is the document of
    [t]. *)
Lemma load_durable (t t' : Tracker) (fs : filesystem) :
  durable json_dump t fs ->
  (∀ now, reads_back json_dump json_load now t) ->
  progress_file t' = progress_file t ->
  load json_load t' fs = LoadTrue t.
Proof.
  intros [now Hdisk] Hback Hfile. destruct (Hback now) as (l & Hl & Hset).
  unfold load. rewrite Hfile, Hdisk, Hl, Hset. now destruct t.
Qed.

(** X6.  [save] and [load] are inverse to each other: when the JSON
    document of a tracker reads back as its three fields, [load] after a
    successful [save], from any tracker on the same progress file, gives
    the tracker that was saved, whatever the loading tracker held. *)
Theorem save_then_load (now : string) (t t' : Tracker) (fs : filesystem) :
  (∀ now', reads_back json_dump json_load now' t) ->
  progress_file t' = progress_file t ->
  load json_load t' (save json_dump now NoFault t fs).1 = LoadTrue t.
Proof.
  intros Hback Hfile. apply load_durable; [|exact Hback|exact Hfile].
  exists now. apply save_returns.
Qed.

End ReadBack.

(** ** Further properties: the loop, resumption and [main] *)

Section Orchestrator.

Context {Metadata Transcript : Type}.
Variable json_dump : @CheckpointData Metadata Transcript -> string.
Variable json_load : string -> @json_document Metadata Transcript.
Variable _extract_video_id : string -> string.

Local Abbreviation Tracker := (@ProgressTracker Metadata Transcript).

Lemma extract_reason (info : @ydl_info_outcome Metadata) (reason : string) :
  extract info = HasError reason -> reason ≠ "" ∧ reason ≠ "Unknown error".
Proof.
  destruct info as [|m|msg|e]; simpl; repeat case_match;
    intros [= <-]; split; discriminate.
Qed.

Lemma transcribe_reason (w : @whisper_outcome Transcript) (reason : string) :
  transcribe w = HasError reason -> reason ≠ "" ∧ reason ≠ "Unknown error".
Proof. destruct w; simpl; intros [= <-]; split; discriminate. Qed.

Lemma download_reason ydl (d : TikTokDownloader) (u : string)
    (attempts : list Z) (fs : filesystem) reason evs fs' :
  download_attempts _extract_video_id ydl d u attempts fs
    = ((None, Some reason), evs, fs') ->
  reason ≠ "" ∧ reason ≠ "Unknown error".
Proof.
  revert evs fs'. induction attempts as [|a rest IH]; intros evs fs'; simpl.
  - intros [= <- _ _]. split; discriminate.
  - destruct (download_attempts _extract_video_id ydl d u rest fs)
      as [[r0 evs0] fs0] eqn:Erest.
    destruct (ydl a) as [c|msg|e]; repeat case_match;
      intros E; inversion E; subst; try (split; discriminate);
      eapply IH; reflexivity.
Qed.

(** X9.  The outcome one iteration appends is for the item of the
    iteration and is of one of two kinds.  A success has status
    ["success"], no error, the metadata and the transcript, and leaves
    [failed_urls] alone.  A failure is the three-key dict of
    [mark_failed]: status ["failed"], neither metadata nor transcript even
    when the metadata stage had succeeded, and as error the reason of the
    stage that failed, which is also entered in [failed_urls]; that reason
    is never empty and never the default ["Unknown error"]. *)
Theorem loop_records_stage_reason (w : @ItemEnv Metadata Transcript)
    (u : string) (s : TikTokTranscriber) (fs : filesystem) :
  let s1 := (loop_body json_dump _extract_video_id w u s fs).1.1.1 in
  let staged := (process_url _extract_video_id w (downloader s) u fs).1.1 in
  ∃ r, results (progress s1) = results (progress s) ++ [r] ∧ url r = u ∧
    ((status staged = "success" ∧ r = staged ∧ error r = None ∧
      (∃ m t, metadata r = Some (Filled m) ∧ transcript r = Some (Filled t)) ∧
      failed_urls (progress s1) = failed_urls (progress s))
     ∨
     (status staged = "failed" ∧
      ∃ reason, error staged = Some reason ∧
        reason ≠ "" ∧ reason ≠ "Unknown error" ∧
        r = {| url := u; status := "failed"; metadata := None;
               transcript := None; error := Some reason |} ∧
        failed_urls (progress s1) = <[u := reason]> (failed_urls (progress s)))).
Proof.
  cbn zeta. unfold loop_body.
  assert (∀ reason m0 t0,
    reason ≠ "" ∧ reason ≠ "Unknown error" ->
    let staged := {| url := u; status := "failed"; metadata := m0;
                     transcript := t0; error := Some reason |} in
    ∀ evs fs1,
    let s1 := (let '(t1, fs2, saved) :=
                 if bool_decide (status staged = "success")
                 then mark_success json_dump (env_utcnow w) (env_save_fault w)
                        u staged (progress s) fs1
                 else mark_failed json_dump (env_utcnow w) (env_save_fault w)
                        u (default "Unknown error" (error staged))
                        (progress s) fs1 in
               ({| downloader := downloader s; progress := t1;
                   _interrupted := _interrupted s || env_sigint w |},
                fs2, evs ++ [EvSave (progress_file t1)], saved)).1.1.1 in
    ∃ r, results (progress s1) = results (progress s) ++ [r] ∧ url r = u ∧
      ((status staged = "success" ∧ r = staged ∧ error r = None ∧
        (∃ m t, metadata r = Some (Filled m) ∧ transcript r = Some (Filled t)) ∧
        failed_urls (progress s1) = failed_urls (progress s))
       ∨
       (status staged = "failed" ∧
        ∃ reason', error staged = Some reason' ∧
          reason' ≠ "" ∧ reason' ≠ "Unknown error" ∧
          r = {| url := u; status := "failed"; metadata := None;
                 transcript := None; error := Some reason' |} ∧
          failed_urls (progress s1)
            = <[u := reason']> (failed_urls (progress s))))) as Hfailed.
  { intros reason m0 t0 [H1 H2] staged evs fs1. subst staged. cbn.
    unfold mark_failed. destruct (save _ _ _ _ _) as [fs2 o]. cbn.
    eexists. split; [reflexivity|]. split; [reflexivity|]. right.
    split; [reflexivity|]. exists reason. auto. }
  destruct (process_url_cases _extract_video_id (downloader s) u w fs)
    as [(reason & Hx & ->)
       |[(m & reason & evs & fs1 & _ & Hd & _ & ->)
        |(m & evs & fs1 & r & _ & _ & _ & _ & Hr & ->)]].
  - apply Hfailed. eapply extract_reason; eauto.
  - apply Hfailed. unfold download_audio in Hd. eapply download_reason; eauto.
  - destruct (transcribe (env_whisper w)) as [reason|t] eqn:Et; subst r.
    + apply Hfailed. eapply transcribe_reason; eauto.
    + cbn. unfold mark_success. destruct (save _ _ _ _ _) as [fs2 o]. cbn.
      eexists. split; [reflexivity|]. split; [reflexivity|]. left.
      split_and!; eauto.
Qed.

Section Runs.

Variable world : nat -> @ItemEnv Metadata Transcript.

Local Abbreviation sigint := (λ i, env_sigint (world i)).

Lemma filter_keeps_all {A} (P : A -> Prop) `{∀ x, Decision (P x)}
    (l : list A) :
  Forall P l -> filter P l = l.
Proof.
  induction 1 as [|x l Hx _ IH]; [reflexivity|].
  now rewrite filter_cons, decide_True, IH.
Qed.

Lemma filter_keeps_none {A} (P : A -> Prop) `{∀ x, Decision (P x)}
    (l : list A) :
  Forall (λ x, ¬ P x) l -> filter P l = [].
Proof.
  induction 1 as [|x l Hx _ IH]; [reflexivity|].
  now rewrite filter_cons, decide_False, IH.
Qed.

(** X10.  A run that is not interrupted and whose saves succeed handles
    every pending item once, in the order of the list: it starts exactly
    the pending items, returns the outcomes it had followed by one outcome
    per pending item, adds exactly those items to the processed set, and
    leaves on disk the checkpoint of the tracker it ends with. *)
Theorem complete_run_handles_every_item (sigint0 : bool)
    (urls : list string) (resume : bool) (s : TikTokTranscriber)
    (fs : filesystem) (t0 : Tracker) (pending : list string) :
  resume_state json_load urls resume (progress s) fs
    = Returned (t0, pending) ->
  (∀ j, (j < length pending)%nat ->
        flag_before sigint 0 (_interrupted s || sigint0) j = false) ->
  (∀ j, (j < length pending)%nat -> env_save_fault (world j) = NoFault) ->
  let '(s', fs', evs, o) :=
    process_batch json_dump json_load _extract_video_id world sigint0 urls
      resume s fs in
  (∃ outs, o = Returned (results t0 ++ outs) ∧ map url outs = pending) ∧
  finished_trace (progress_file t0) pending evs ∧
  items_started evs = pending ∧
  processed_urls (progress s') = list_to_set pending ∪ processed_urls t0 ∧
  match pending with
  | [] => fs' = fs
  | _ => durable json_dump (progress s') fs'
  end.
Proof.
  intros E Hflag Hsave.
  rewrite (process_batch_loop json_dump _extract_video_id json_load world
             sigint0 urls resume s fs t0 pending E).
  set (s0 := {| downloader := downloader s; progress := t0;
                _interrupted := _interrupted s || sigint0 |}).
  destruct (batch_loop_run json_dump _extract_video_id json_load world pending [] 0
              s0 fs Hflag Hsave)
    as (s1 & fs1 & evs1 & outs & Hl & _ & _ & Hres & Hurl & Hproc & _
        & Htr & Hst & Hlast).
  specialize (Hl s1 fs1 [] (Returned tt) eq_refl).
  rewrite !app_nil_r in Hl. rewrite Hl.
  split_and!; try done.
  - exists outs. now rewrite Hres.
  - destruct pending; [now destruct Hlast | exact Hlast].
Qed.

(** X11.  Resumption after an interruption: when a run over a list of
    different, not yet processed items stops before the item [u], and the
    checkpoint it wrote reads back, a later run with [resume] on the same
    progress file loads the tracker the first run ended with, and its
    pending list is [u] and the items after it. *)
Theorem resume_after_interruption (sigint0 : bool) (s : TikTokTranscriber)
    (fs : filesystem) (done : list string) (u : string)
    (todo : list string) (t2 : Tracker) :
  done ≠ [] ->
  NoDup (done ++ u :: todo) ->
  (∀ x, x ∈ done ++ u :: todo -> x ∉ processed_urls (progress s)) ->
  (∀ j, (j < length done)%nat ->
        flag_before sigint 0 (_interrupted s || sigint0) j = false) ->
  flag_before sigint 0 (_interrupted s || sigint0) (length done) = true ->
  (∀ j, (j < length done)%nat -> env_save_fault (world j) = NoFault) ->
  progress_file t2 = progress_file (progress s) ->
  let '(s1, fs1, _, _) :=
    process_batch json_dump json_load _extract_video_id world sigint0
      (done ++ u :: todo) false s fs in
  (∀ now, reads_back json_dump json_load now (progress s1)) ->
  resume_state json_load (done ++ u :: todo) true t2 fs1
    = Returned (progress s1, u :: todo).
Proof.
  intros Hdone Hnd Hfresh Hflag Hset Hsave Hfile.
  rewrite (process_batch_loop json_dump _extract_video_id json_load world
             sigint0 (done ++ u :: todo) false s fs (progress s) _ eq_refl).
  set (s0 := {| downloader := downloader s; progress := progress s;
                _interrupted := _interrupted s || sigint0 |}).
  destruct (batch_loop_run json_dump _extract_video_id json_load world done
              (u :: todo) 0 s0 fs Hflag Hsave)
    as (s1 & fs1 & evs1 & outs & Hl & _ & Hpf & _ & _ & Hproc & Hint
        & _ & _ & Hlast).
  cbn [_interrupted progress s0] in Hint, Hproc, Hpf.
  rewrite Hset in Hint.
  rewrite (Hl s1 fs1 [EvInterruptedCheck true] (Returned tt))
    by (simpl; now rewrite Hint).
  intros Hback.
  assert (durable json_dump (progress s1) fs1) as Hdur
    by (destruct done; [congruence | exact Hlast]).
  unfold resume_state.
  rewrite (load_durable json_dump json_load (progress s1) t2 fs1 Hdur Hback)
    by congruence.
  f_equal. f_equal. unfold get_pending_urls. rewrite Hproc, filter_app.
  apply NoDup_app in Hnd as (_ & Hdisj & _).
  rewrite filter_keeps_none, filter_keeps_all; [reflexivity| |].
  - apply Forall_forall. intros x Hx.
    assert (x ∉ done) by (intros Hin; exact (Hdisj x Hin Hx)).
    assert (x ∉ processed_urls (progress s)) by (apply Hfresh; set_solver).
    set_solver.
  - apply Forall_forall. intros x Hx. set_solver.
Qed.

(** X12.  Resuming a finished run does nothing: after a run that handled
    every item of a non-empty list, a run with [resume] on the same list
    and progress file, whose checkpoint reads back, starts no item, leaves
    the file system as it is and returns the outcomes of the first run. *)
Theorem resume_of_finished_run_is_idle (sigint0 : bool)
    (urls : list string) (s : TikTokTranscriber) (fs : filesystem)
    (world2 : nat -> @ItemEnv Metadata Transcript) (sigint2 : bool)
    (s2 : TikTokTranscriber) :
  urls ≠ [] ->
  (∀ j, (j < length urls)%nat ->
        flag_before sigint 0 (_interrupted s || sigint0) j = false) ->
  (∀ j, (j < length urls)%nat -> env_save_fault (world j) = NoFault) ->
  progress_file (progress s2) = progress_file (progress s) ->
  let '(s1, fs1, _, o1) :=
    process_batch json_dump json_load _extract_video_id world sigint0 urls
      false s fs in
  (∀ now, reads_back json_dump json_load now (progress s1)) ->
  let '(s2', fs2, evs2, o2) :=
    process_batch json_dump json_load _extract_video_id world2 sigint2 urls
      true s2 fs1 in
  evs2 = [] ∧ fs2 = fs1 ∧ o2 = o1 ∧ progress s2' = progress s1.
Proof.
  intros Hurls Hflag Hsave Hfile.
  rewrite (process_batch_loop json_dump _extract_video_id json_load world
             sigint0 urls false s fs (progress s) _ eq_refl).
  set (s0 := {| downloader := downloader s; progress := progress s;
                _interrupted := _interrupted s || sigint0 |}).
  destruct (batch_loop_run json_dump _extract_video_id json_load world urls [] 0
              s0 fs Hflag Hsave)
    as (s1 & fs1 & evs1 & outs & Hl & _ & Hpf & _ & _ & Hproc & _
        & _ & _ & Hlast).
  cbn [progress s0] in Hproc, Hpf.
  specialize (Hl s1 fs1 [] (Returned tt) eq_refl).
  rewrite !app_nil_r in Hl. rewrite Hl.
  intros Hback.
  assert (durable json_dump (progress s1) fs1) as Hdur
    by (destruct urls; [congruence | exact Hlast]).
  assert (resume_state json_load urls true (progress s2) fs1
          = Returned (progress s1, [])) as E.
  { unfold resume_state.
    rewrite (load_durable json_dump json_load (progress s1) (progress s2)
               fs1 Hdur Hback) by congruence.
    f_equal. f_equal. unfold get_pending_urls. rewrite Hproc.
    apply filter_keeps_none, Forall_forall. intros x Hx. set_solver. }
  rewrite (process_batch_loop json_dump _extract_video_id json_load world2
             sigint2 urls true s2 fs1 (progress s1) [] E).
  simpl. auto.
Qed.

(** In the file system of the model a download writes the audio file of
    the item and nothing else, and so does the pipeline. *)
Lemma download_attempts_frame ydl (d : TikTokDownloader) (u : string)
    (attempts : list Z) (fs : filesystem) (p : string) :
  p ≠ output_path _extract_video_id d u ->
  (download_attempts _extract_video_id ydl d u attempts fs).2 !! p = fs !! p.
Proof.
  intros Hp. induction attempts as [|a rest IH]; [reflexivity|]. simpl.
  destruct (download_attempts _extract_video_id ydl d u rest fs)
    as [[r0 evs0] fs0].
  cbn [snd] in IH.
  destruct (ydl a) as [[audio|]|msg|e]; repeat case_match; cbn [snd];
    rewrite ?lookup_insert_ne by congruence; auto.
Qed.

Lemma process_url_frame (w : @ItemEnv Metadata Transcript)
    (d : TikTokDownloader) (u : string) (fs : filesystem) (p : string) :
  p ≠ output_path _extract_video_id d u ->
  (process_url _extract_video_id w d u fs).2 !! p = fs !! p.
Proof.
  intros Hp.
  destruct (process_url_cases _extract_video_id d u w fs)
    as [(reason & _ & ->)
       |[(m & reason & evs & fs1 & _ & Hd & _ & ->)
        |(m & evs & fs1 & r & _ & Hd & _ & _ & _ & ->)]];
    cbn [snd]; [reflexivity| |];
    pose proof (download_attempts_frame (env_download w) d u
                  (range (max_retries d)) fs p Hp) as Hf;
    unfold download_audio in Hd; rewrite Hd in Hf; cbn [snd] in Hf;
    [exact Hf|].
  unfold cleanup. repeat case_match; rewrite ?lookup_delete_ne by congruence;
    exact Hf.
Qed.

Lemma loop_body_failed_save (w : @ItemEnv Metadata Transcript) (u : string)
    (s : TikTokTranscriber) (fs : filesystem) :
  env_save_fault w ≠ NoFault ->
  (loop_body json_dump _extract_video_id w u s fs).1.1.2
    !! progress_file (progress s)
  = (process_url _extract_video_id w (downloader s) u fs).2
    !! progress_file (progress s).
Proof.
  intros Hf. unfold loop_body.
  destruct (process_url _extract_video_id w (downloader s) u fs)
    as [[result evs] fs1].
  case_bool_decide; unfold mark_success, mark_failed;
    match goal with
    | |- context [save json_dump ?now ?fault ?t ?fs0] =>
        pose proof (save_raises json_dump now fault t fs0 Hf) as [_ Hs];
        destruct (save json_dump now fault t fs0) as [fs2 o]
    end; exact Hs.
Qed.

(** X13.  A save that fails ends the run with the exception: the item of
    that iteration is the last one started, its outcome is in the tracker
    in memory only, and, the audio file not being the progress file, the
    checkpoint on disk is the one written for the items handled before
    it (or the file the run found, when it is the first item). *)
Theorem failed_save_aborts_run (sigint0 : bool) (urls : list string)
    (resume : bool) (s : TikTokTranscriber) (fs : filesystem) (t0 : Tracker)
    (done : list string) (u : string) (todo : list string) :
  resume_state json_load urls resume (progress s) fs
    = Returned (t0, done ++ u :: todo) ->
  (∀ j, (j <= length done)%nat ->
        flag_before sigint 0 (_interrupted s || sigint0) j = false) ->
  (∀ j, (j < length done)%nat -> env_save_fault (world j) = NoFault) ->
  env_save_fault (world (length done)) ≠ NoFault ->
  output_path _extract_video_id (downloader s) u ≠ progress_file t0 ->
  let '(s', fs', evs, o) :=
    process_batch json_dump json_load _extract_video_id world sigint0 urls
      resume s fs in
  o = Raised OSError ∧
  items_started evs = done ++ [u] ∧
  ∃ t_done r,
    results (progress s') = results t_done ++ [r] ∧ url r = u ∧
    (∃ outs, results t_done = results t0 ++ outs ∧ map url outs = done) ∧
    match done with
    | [] => fs' !! progress_file t0 = fs !! progress_file t0
    | _ => durable json_dump t_done fs'
    end.
Proof.
  intros E Hflag Hsave Hfault Hpath.
  rewrite (process_batch_loop json_dump _extract_video_id json_load world
             sigint0 urls resume s fs t0 _ E).
  set (s0 := {| downloader := downloader s; progress := t0;
                _interrupted := _interrupted s || sigint0 |}).
  destruct (batch_loop_run json_dump _extract_video_id json_load world done
              (u :: todo) 0 s0 fs)
    as (s1 & fs1 & evs1 & outs & Hl & Hd1 & Hpf & Hres & Hurl & _ & Hint
        & _ & Hst & Hlast); [intros j Hj; apply Hflag; lia | exact Hsave |].
  cbn [_interrupted progress downloader s0] in Hint, Hres, Hpf, Hd1.
  rewrite Hflag in Hint by lia.
  pose proof (loop_body_failed_save (world (length done)) u s1 fs1 Hfault)
    as Hdisk.
  rewrite process_url_frame in Hdisk
    by (rewrite Hd1, Hpf; intros Heq; apply Hpath; now rewrite Heq).
  destruct (loop_body_summary json_dump _extract_video_id
              (world (length done)) u s1 fs1)
    as (s2 & fs2 & body & saved & r & Eb & _ & _ & _ & Hr2 & Hurl2
        & _ & _ & Hst2 & _ & Hraise).
  rewrite Eb in Hdisk. cbn [fst snd] in Hdisk.
  rewrite (Hraise Hfault) in Eb.
  rewrite (Hl s2 fs2
             (EvInterruptedCheck false
                :: body ++ [EvSave (progress_file (progress s1))])
             (Raised OSError))
    by (simpl; now rewrite Hint, Eb).
  split_and!.
  - reflexivity.
  - unfold items_started in *. rewrite omap_app, Hst.
    change (EvInterruptedCheck false
              :: body ++ [EvSave (progress_file (progress s1))])
      with ([EvInterruptedCheck false] ++ body
              ++ [EvSave (progress_file (progress s1))]).
    rewrite !omap_app, Hst2. reflexivity.
  - exists (progress s1), r. split_and!; eauto.
    destruct done as [|x done'].
    + destruct Hlast as [-> ->]. exact Hdisk.
    + destruct Hlast as [now Hnow]. exists now. now rewrite Hdisk.
Qed.

End Runs.

End Orchestrator.

Section MainProgram.

Context {Metadata Transcript : Type}.
Variable report_dump : @ReportData Metadata Transcript -> string.
Variable json_dump : @CheckpointData Metadata Transcript -> string.
Variable json_load : string -> @json_document Metadata Transcript.
Variable _extract_video_id : string -> string.

Local Abbreviation run_main :=
  (main report_dump json_dump json_load _extract_video_id).
Local Abbreviation run_batch :=
  (process_batch json_dump json_load _extract_video_id).

(** The loop and [process_batch] never change the progress file name. *)
Lemma batch_loop_progress_file (world : nat -> @ItemEnv Metadata Transcript)
    (us : list string) (k : nat) (s : TikTokTranscriber) (fs : filesystem) :
  progress_file
    (progress (batch_loop json_dump _extract_video_id world k us s fs).1.1.1)
  = progress_file (progress s).
Proof.
  revert k s fs. induction us as [|u us IH]; intros k s fs; [reflexivity|].
  simpl. destruct (_interrupted s); [reflexivity|].
  destruct (loop_body_summary json_dump _extract_video_id (world k) u s fs)
    as (s1 & fs1 & body & saved & r & Eb & _ & Hpf & _).
  rewrite Eb. destruct saved as [[]|e]; [|exact Hpf].
  specialize (IH (S k) s1 fs1).
  destruct (batch_loop json_dump _extract_video_id world (S k) us s1 fs1)
    as [[[s2 fs2] evs2] o].
  cbn [fst] in *. congruence.
Qed.

Lemma process_batch_progress_file (world : nat -> @ItemEnv Metadata Transcript)
    (sigint0 : bool) (urls : list string) (resume : bool)
    (s : TikTokTranscriber) (fs : filesystem) :
  progress_file (progress (run_batch world sigint0 urls resume s fs).1.1.1)
  = progress_file (progress s).
Proof.
  destruct (resume_state json_load urls resume (progress s) fs)
    as [[t0 us]|e] eqn:E.
  - rewrite (process_batch_loop json_dump _extract_video_id json_load world
               sigint0 urls resume s fs t0 us E).
    pose proof (batch_loop_progress_file world us 0
                  {| downloader := downloader s; progress := t0;
                     _interrupted := _interrupted s || sigint0 |} fs) as H.
    destruct (batch_loop _ _ _ _ _ _ _) as [[[s1 fs1] evs] o].
    cbn [fst progress] in *. rewrite H.
    unfold resume_state in E.
    destruct resume; [|now inversion E].
    destruct (load json_load (progress s) fs) as [|t1|e] eqn:El;
      inversion E; subst; [reflexivity|].
    unfold load in El.
    destruct (fs !! progress_file (progress s)); [|discriminate].
    destruct (json_load _); inversion El. reflexivity.
  - unfold process_batch. now rewrite E.
Qed.


(** X15.  After a run of [main] in which the batch returned, the report
    was written, no SIGINT arrived and [os.remove] did not fail, the exit
    code is 0 and the checkpoint is gone: [load] on the progress file
    returns [False], so the next run, with or without [--resume],
    processes the whole input again.  The report is in the output file
    when that is not the progress file. *)
Theorem main_removes_checkpoint_when_complete (args : Args) (env : MainEnv)
    (fs : filesystem) (content : string) (s1 : TikTokTranscriber)
    (fs1 : filesystem) (evs : list event)
    (rs : list (@Result Metadata Transcript)) :
  fs !! args_input args = Some content ->
  collect_urls (text_lines content) ≠ [] ->
  run_batch (main_world env) (main_sigint_first env)
    (collect_urls (text_lines content)) (args_resume args)
    (TikTokTranscriber_init (args_model args) (args_progress_file args)
       (main_mkdtemp env)) fs
    = (s1, fs1, evs, Returned rs) ->
  main_report_fault env = NoFault ->
  _interrupted s1 || main_sigint_last env = false ->
  main_remove_fails env = false ->
  let '(fs', evs', e) := run_main args env fs in
  e = Exit 0 ∧ evs' = evs ∧
  fs' !! args_progress_file args = None ∧
  (∀ t : @ProgressTracker Metadata Transcript,
     progress_file t = args_progress_file args ->
     load json_load t fs' = LoadFalse) ∧
  (args_output args ≠ args_progress_file args ->
   fs' !! args_output args
     = Some (report_dump (report_data (main_utcnow env) rs))).
Proof.
  intros Hin Hurls Hbatch Hfault Hflag Hremove.
  pose proof (process_batch_progress_file (main_world env)
                (main_sigint_first env) (collect_urls (text_lines content))
                (args_resume args)
                (TikTokTranscriber_init (args_model args)
                   (args_progress_file args) (main_mkdtemp env)) fs) as Hpf.
  rewrite Hbatch in Hpf. cbn in Hpf.
  unfold main, path_exists, load_urls. rewrite Hin.
  rewrite bool_decide_eq_true_2 by eauto. cbn [negb].
  destruct (collect_urls (text_lines content)) as [|u0 us] eqn:Eu;
    [congruence|].
  rewrite Hbatch. unfold save_output, write_file. rewrite Hfault, Hflag.
  unfold progress_cleanup, path_exists. rewrite Hremove, Hpf.
  assert ((if bool_decide
                (is_Some
                   (<[args_output args :=
                        report_dump (report_data (main_utcnow env) rs)]> fs1
                    !! args_progress_file args))
           then delete (args_progress_file args)
                  (<[args_output args :=
                       report_dump (report_data (main_utcnow env) rs)]> fs1)
           else <[args_output args :=
                    report_dump (report_data (main_utcnow env) rs)]> fs1)
          !! args_progress_file args = None) as Hgone.
  { case_bool_decide as Hex; [apply lookup_delete_eq|].
    destruct (_ !! args_progress_file args) eqn:El; [|reflexivity].
    exfalso. apply Hex. eauto. }
  split_and!; try done.
  - intros t Ht. unfold load. rewrite Ht, Hgone. reflexivity.
  - intros Hne. case_bool_decide.
    + rewrite lookup_delete_ne by congruence. apply lookup_insert_eq.
    + apply lookup_insert_eq.
Qed.

(** X16.  The checkpoint outlives every run that is not complete: when the
    batch returned and the report goes to another file than the progress
    file, [main] leaves the checkpoint as the batch left it both when
    writing the report fails, in which case the exception ends the
    program before the cleanup, and when SIGINT arrived, in which case the
    exit code is 0 and the cleanup is skipped. *)
Theorem main_keeps_checkpoint_when_incomplete (args : Args) (env : MainEnv)
    (fs : filesystem) (content : string) (s1 : TikTokTranscriber)
    (fs1 : filesystem) (evs : list event)
    (rs : list (@Result Metadata Transcript)) :
  fs !! args_input args = Some content ->
  collect_urls (text_lines content) ≠ [] ->
  run_batch (main_world env) (main_sigint_first env)
    (collect_urls (text_lines content)) (args_resume args)
    (TikTokTranscriber_init (args_model args) (args_progress_file args)
       (main_mkdtemp env)) fs
    = (s1, fs1, evs, Returned rs) ->
  args_output args ≠ args_progress_file args ->
  let '(fs', _, e) := run_main args env fs in
  ((main_report_fault env = OpenFails ∨
    ∃ n, main_report_fault env = WriteFails n) ->
   e = Crashed OSError ∧
   fs' !! args_progress_file args = fs1 !! args_progress_file args) ∧
  (main_report_fault env = NoFault ->
   _interrupted s1 || main_sigint_last env = true ->
   e = Exit 0 ∧
   fs' !! args_progress_file args = fs1 !! args_progress_file args).
Proof.
  intros Hin Hurls Hbatch Hne.
  unfold main, path_exists, load_urls. rewrite Hin.
  rewrite bool_decide_eq_true_2 by eauto. cbn [negb].
  destruct (collect_urls (text_lines content)) as [|u0 us] eqn:Eu;
    [congruence|].
  rewrite Hbatch. unfold save_output, write_file.
  destruct (main_report_fault env) as [| |n|] eqn:Hf; cbn beta iota zeta.
  - destruct (_interrupted s1 || main_sigint_last env) eqn:Hflag;
      (split; [intros [?|[? ?]]; discriminate|]); intros _ Hflag';
      [|discriminate].
    split; [reflexivity|]. now rewrite lookup_insert_ne by exact Hne.
  - split; [|discriminate]. intros _. split; reflexivity.
  - split; [|discriminate]. intros _. split; [reflexivity|].
    now rewrite lookup_insert_ne by exact Hne.
  - destruct (_interrupted s1 || main_sigint_last env);
      (split; [intros [?|[? ?]]; discriminate | discriminate]).
Qed.

End MainProgram.

Section ResumeWithoutCheckpoint.

Context {Metadata Transcript : Type}.
Variable json_dump : @CheckpointData Metadata Transcript -> string.
Variable json_load : string -> @json_document Metadata Transcript.
Variable _extract_video_id : string -> string.


End ResumeWithoutCheckpoint.

(** ** The further properties on the concrete world *)

Lemma load_urls_clean_witness :
  load_urls "urls.txt" demo_input_disk = Returned ["A"; "B"] ∧
  Forall (λ u, u ≠ "" ∧ String.prefix "#" u = false ∧ strip u = u) ["A"; "B"].
Proof.
  assert (load_urls "urls.txt" demo_input_disk = Returned ["A"; "B"]) as H
    by (vm_compute; reflexivity).
  split; [exact H|].
  exact (proj1 (proj2 (load_urls_clean "urls.txt" demo_input_disk _ H))).
Defined.

(** A reset connection, then a download that leaves no file: two attempts,
    one sleep, the error of the missing file. *)
Lemma download_stops_when_ydl_returns_witness :
  0 <= 1 < max_retries demo_downloader ∧
  demo_ydl_no_file 1 = DlReturns None ∧
  download_audio demo_video_id demo_ydl_no_file demo_downloader "A" ∅
    = ((None, Some "Audio file not created"),
       [EvDownload "A" 0; EvSleep 1; EvDownload "A" 1], ∅).
Proof.
  assert (0 <= 1 < max_retries demo_downloader) as H1 by (simpl; lia).
  assert (∀ j, 0 <= j < 1 -> retryable (demo_ydl_no_file j) = true) as H2.
  { intros j Hj. replace j with 0 by lia. reflexivity. }
  assert (demo_ydl_no_file 1 = DlReturns None) as H3 by reflexivity.
  split; [exact H1 | split; [exact H3|]].
  exact (download_stops_when_ydl_returns demo_video_id demo_ydl_no_file
           demo_downloader "A" 1 None ∅ H1 H2 H3).
Defined.

Lemma demo_tracker_A_reads_back (now : string) :
  reads_back demo_dump_urls demo_load now demo_tracker_A.
Proof. exists ["A"]. split; [reflexivity | set_solver]. Qed.

Lemma save_then_load_witness :
  (∀ now, reads_back demo_dump_urls demo_load now demo_tracker_A) ∧
  load demo_load demo_tracker
    (save demo_dump_urls "2024-01-01T00:00:00" NoFault demo_tracker_A
       demo_disk).1
    = LoadTrue demo_tracker_A.
Proof.
  split; [exact demo_tracker_A_reads_back|].
  exact (save_then_load demo_dump_urls demo_load "2024-01-01T00:00:00"
           demo_tracker_A demo_tracker demo_disk demo_tracker_A_reads_back
           eq_refl).
Defined.

Lemma save_after_failed_save_witness :
  WriteFails 2 ≠ NoFault ∧
  (save demo_dump "2024-01-02T00:00:00" NoFault demo_tracker_A
     (save demo_dump "2024-01-01T00:00:00" (WriteFails 2) demo_tracker
        demo_disk).1).1
    !! ".tiktok_progress.json.tmp" = None.
Proof.
  assert (WriteFails 2 ≠ NoFault) as H by discriminate.
  split; [exact H|].
  exact (proj2 (save_after_failed_save demo_dump "2024-01-01T00:00:00"
                  "2024-01-02T00:00:00" (WriteFails 2) demo_tracker
                  demo_tracker_A demo_disk H eq_refl)).
Defined.


Lemma complete_run_handles_every_item_witness :
  resume_state demo_load ["A"; "B"] false (progress demo_transcriber) demo_disk
    = Returned (demo_tracker, ["A"; "B"]) ∧
  items_started
    (process_batch demo_dump demo_load demo_video_id demo_world false
       ["A"; "B"] false demo_transcriber demo_disk).1.2 = ["A"; "B"].
Proof.
  assert (resume_state demo_load ["A"; "B"] false (progress demo_transcriber)
            demo_disk = Returned (demo_tracker, ["A"; "B"])) as H1
    by reflexivity.
  assert (∀ j, (j < length ["A"; "B"])%nat ->
               flag_before (λ i, env_sigint (demo_world i)) 0
                 (_interrupted demo_transcriber || false) j = false) as H2.
  { intros [|[|j]] Hj; [reflexivity | reflexivity | simpl in Hj; lia]. }
  assert (∀ j, (j < length ["A"; "B"])%nat ->
               env_save_fault (demo_world j) = NoFault) as H3
    by (intros j _; reflexivity).
  split; [exact H1|].
  pose proof (complete_run_handles_every_item demo_dump demo_load
                demo_video_id demo_world false ["A"; "B"] false
                demo_transcriber demo_disk demo_tracker ["A"; "B"] H1 H2 H3)
    as G.
  destruct (process_batch demo_dump demo_load demo_video_id demo_world false
              ["A"; "B"] false demo_transcriber demo_disk)
    as [[[s' fs'] evs] o].
  destruct G as (_ & _ & Hst & _). exact Hst.
Defined.

(** SIGINT while ["A"] is in the pipeline; the run that resumes has ["B"]
    to do. *)
Lemma resume_after_interruption_witness :
  NoDup (["A"] ++ "B" :: []) ∧
  resume_state demo_load (["A"] ++ "B" :: []) true demo_tracker
    (process_batch demo_dump_urls demo_load demo_video_id demo_world_sigint
       false (["A"] ++ "B" :: []) false demo_transcriber demo_disk).1.1.2
  = Returned
      (progress
         (process_batch demo_dump_urls demo_load demo_video_id
            demo_world_sigint false (["A"] ++ "B" :: []) false
            demo_transcriber demo_disk).1.1.1,
       ["B"]).
Proof.
  assert (["A"] ≠ []) as H0 by discriminate.
  assert (NoDup (["A"] ++ "B" :: [])) as H1
    by (repeat constructor; set_solver).
  assert (∀ x, x ∈ ["A"] ++ "B" :: [] ->
               x ∉ processed_urls (progress demo_transcriber)) as H2
    by (intros x _; apply not_elem_of_empty).
  assert (∀ j, (j < length ["A"])%nat ->
               flag_before (λ i, env_sigint (demo_world_sigint i)) 0
                 (_interrupted demo_transcriber || false) j = false) as H3.
  { intros j Hj. replace j with 0%nat by (simpl in Hj; lia). reflexivity. }
  assert (flag_before (λ i, env_sigint (demo_world_sigint i)) 0
            (_interrupted demo_transcriber || false) (length ["A"]) = true)
    as H4 by reflexivity.
  assert (∀ j, (j < length ["A"])%nat ->
               env_save_fault (demo_world_sigint j) = NoFault) as H5
    by (intros j _; reflexivity).
  split; [exact H1|].
  pose proof (resume_after_interruption demo_dump_urls demo_load
                demo_video_id demo_world_sigint false demo_transcriber
                demo_disk ["A"] "B" [] demo_tracker H0 H1 H2 H3 H4 H5 eq_refl)
    as G.
  assert (progress
            (process_batch demo_dump_urls demo_load demo_video_id
               demo_world_sigint false (["A"] ++ "B" :: []) false
               demo_transcriber demo_disk).1.1.1 = demo_tracker_A) as Ht
    by (vm_compute; reflexivity).
  destruct (process_batch demo_dump_urls demo_load demo_video_id
              demo_world_sigint false (["A"] ++ "B" :: []) false
              demo_transcriber demo_disk)
    as [[[s1 fs1] evs] o].
  cbn [fst snd] in *. apply G. intros now. rewrite Ht.
  apply demo_tracker_A_reads_back.
Defined.

(** A finished run over ["A"], resumed: nothing happens. *)
Lemma resume_of_finished_run_is_idle_witness :
  ["A"] ≠ [] ∧
  (process_batch demo_dump_urls demo_load demo_video_id demo_world false
     ["A"] true demo_transcriber
     (process_batch demo_dump_urls demo_load demo_video_id demo_world false
        ["A"] false demo_transcriber demo_disk).1.1.2).1.2 = [].
Proof.
  assert (["A"] ≠ []) as H0 by discriminate.
  assert (∀ j, (j < length ["A"])%nat ->
               flag_before (λ i, env_sigint (demo_world i)) 0
                 (_interrupted demo_transcriber || false) j = false) as H1.
  { intros j Hj. replace j with 0%nat by (simpl in Hj; lia). reflexivity. }
  assert (∀ j, (j < length ["A"])%nat ->
               env_save_fault (demo_world j) = NoFault) as H2
    by (intros j _; reflexivity).
  split; [exact H0|].
  pose proof (resume_of_finished_run_is_idle demo_dump_urls demo_load
                demo_video_id demo_world false ["A"] demo_transcriber
                demo_disk demo_world false demo_transcriber H0 H1 H2 eq_refl)
    as G.
  assert (progress
            (process_batch demo_dump_urls demo_load demo_video_id demo_world
               false ["A"] false demo_transcriber demo_disk).1.1.1
          = demo_tracker_A) as Ht
    by (vm_compute; reflexivity).
  destruct (process_batch demo_dump_urls demo_load demo_video_id demo_world
              false ["A"] false demo_transcriber demo_disk)
    as [[[s1 fs1] evs] o].
  cbn [fst snd] in *.
  assert (∀ now, reads_back demo_dump_urls demo_load now (progress s1))
    as Hback
    by (intros now; rewrite Ht; apply demo_tracker_A_reads_back).
  specialize (G Hback).
  destruct (process_batch demo_dump_urls demo_load demo_video_id demo_world
              false ["A"] true demo_transcriber fs1)
    as [[[s2 fs2] evs2] o2].
  exact (proj1 G).
Defined.

(** The disk is full at the save of ["B"]: the run ends there, ["C"] is
    never started. *)
Lemma failed_save_aborts_run_witness :
  env_save_fault (demo_world_disk_full (length ["A"])) ≠ NoFault ∧
  output_path demo_video_id (downloader demo_transcriber) "B"
    ≠ progress_file demo_tracker ∧
  (process_batch demo_dump demo_load demo_video_id demo_world_disk_full
     false ["A"; "B"; "C"] false demo_transcriber demo_disk).2
    = Raised OSError ∧
  items_started
    (process_batch demo_dump demo_load demo_video_id demo_world_disk_full
       false ["A"; "B"; "C"] false demo_transcriber demo_disk).1.2
    = ["A"] ++ ["B"].
Proof.
  assert (resume_state demo_load ["A"; "B"; "C"] false
            (progress demo_transcriber) demo_disk
          = Returned (demo_tracker, ["A"] ++ "B" :: ["C"])) as H1
    by reflexivity.
  assert (∀ j, (j <= length ["A"])%nat ->
               flag_before (λ i, env_sigint (demo_world_disk_full i)) 0
                 (_interrupted demo_transcriber || false) j = false) as H2.
  { intros [|[|j]] Hj; [reflexivity | reflexivity | simpl in Hj; lia]. }
  assert (∀ j, (j < length ["A"])%nat ->
               env_save_fault (demo_world_disk_full j) = NoFault) as H3.
  { intros j Hj. replace j with 0%nat by (simpl in Hj; lia). reflexivity. }
  assert (env_save_fault (demo_world_disk_full (length ["A"])) ≠ NoFault)
    as H4 by (vm_compute; discriminate).
  assert (output_path demo_video_id (downloader demo_transcriber) "B"
          ≠ progress_file demo_tracker) as H5
    by (vm_compute; discriminate).
  split; [exact H4 | split; [exact H5|]].
  pose proof (failed_save_aborts_run demo_dump demo_load demo_video_id
                demo_world_disk_full false ["A"; "B"; "C"] false
                demo_transcriber demo_disk demo_tracker ["A"] "B" ["C"]
                H1 H2 H3 H4 H5) as G.
  destruct (process_batch demo_dump demo_load demo_video_id
              demo_world_disk_full false ["A"; "B"; "C"] false
              demo_transcriber demo_disk)
    as [[[s' fs'] evs] o].
  destruct G as (Ho & Hst & _). split; [exact Ho | exact Hst].
Defined.

(** A complete run of [main] on the input file: exit code 0, no
    checkpoint left. *)
Lemma main_removes_checkpoint_when_complete_witness :
  demo_input_disk !! args_input demo_args = Some demo_input ∧
  collect_urls (text_lines demo_input) ≠ [] ∧
  (main demo_report_dump demo_dump demo_load demo_video_id demo_args
     demo_main_env demo_input_disk).2 = Exit 0 ∧
  (main demo_report_dump demo_dump demo_load demo_video_id demo_args
     demo_main_env demo_input_disk).1.1 !! ".tiktok_progress.json" = None.
Proof.
  assert (demo_input_disk !! args_input demo_args = Some demo_input) as H1
    by reflexivity.
  assert (collect_urls (text_lines demo_input) ≠ []) as H2
    by (vm_compute; discriminate).
  set (run := process_batch demo_dump demo_load demo_video_id
                (main_world demo_main_env) (main_sigint_first demo_main_env)
                (collect_urls (text_lines demo_input))
                (args_resume demo_args)
                (TikTokTranscriber_init (args_model demo_args)
                   (args_progress_file demo_args)
                   (main_mkdtemp demo_main_env)) demo_input_disk).
  assert (run = (run.1.1.1, run.1.1.2, run.1.2,
                 Returned [demo_result_A; demo_result_B])) as H3
    by (vm_compute; reflexivity).
  assert (_interrupted run.1.1.1 || main_sigint_last demo_main_env = false)
    as H4 by (vm_compute; reflexivity).
  split; [exact H1 | split; [exact H2|]].
  pose proof (main_removes_checkpoint_when_complete demo_report_dump demo_dump
                demo_load demo_video_id demo_args demo_main_env
                demo_input_disk demo_input _ _ _ _ H1 H2 H3 eq_refl H4
                eq_refl) as G.
  destruct (main demo_report_dump demo_dump demo_load demo_video_id demo_args
              demo_main_env demo_input_disk) as [[fs' evs'] e].
  destruct G as (He & _ & Hgone & _). split; [exact He | exact Hgone].
Defined.

(** The report cannot be written: the exception ends [main], the
    checkpoint of the two items stays. *)
Lemma main_keeps_checkpoint_when_incomplete_witness :
  args_output demo_args ≠ args_progress_file demo_args ∧
  (main demo_report_dump demo_dump demo_load demo_video_id demo_args
     demo_main_env_no_report demo_input_disk).2 = Crashed OSError ∧
  is_Some
    ((main demo_report_dump demo_dump demo_load demo_video_id demo_args
        demo_main_env_no_report demo_input_disk).1.1
     !! ".tiktok_progress.json").
Proof.
  assert (demo_input_disk !! args_input demo_args = Some demo_input) as H1
    by reflexivity.
  assert (collect_urls (text_lines demo_input) ≠ []) as H2
    by (vm_compute; discriminate).
  set (run := process_batch demo_dump demo_load demo_video_id
                (main_world demo_main_env_no_report)
                (main_sigint_first demo_main_env_no_report)
                (collect_urls (text_lines demo_input))
                (args_resume demo_args)
                (TikTokTranscriber_init (args_model demo_args)
                   (args_progress_file demo_args)
                   (main_mkdtemp demo_main_env_no_report)) demo_input_disk).
  assert (run = (run.1.1.1, run.1.1.2, run.1.2,
                 Returned [demo_result_A; demo_result_B])) as H3
    by (vm_compute; reflexivity).
  assert (args_output demo_args ≠ args_progress_file demo_args) as H4
    by (vm_compute; discriminate).
  assert (is_Some (run.1.1.2 !! ".tiktok_progress.json")) as H5
    by (vm_compute; eauto).
  split; [exact H4|].
  pose proof (main_keeps_checkpoint_when_incomplete demo_report_dump demo_dump
                demo_load demo_video_id demo_args demo_main_env_no_report
                demo_input_disk demo_input _ _ _ _ H1 H2 H3 H4) as G.
  destruct (main demo_report_dump demo_dump demo_load demo_video_id demo_args
              demo_main_env_no_report demo_input_disk) as [[fs' evs'] e].
  destruct G as [G _]. destruct G as [He Hkept]; [left; reflexivity|].
  split; [exact He|]. cbn [fst snd]. cbn in Hkept. rewrite Hkept. exact H5.
Defined.
